(** * RalphLoopAgent: the outer verification loop, blocking and streaming

    A shallow embedding of [src/ralph-loop-agent.ts].  The agent drives an
    external text-generation engine ([generateText] / [streamText] of the
    [ai] package), optional lifecycle callbacks and an optional verification
    predicate.  All of these are collaborators outside the repository: they
    are modelled as an environment acting on an abstract [World], and every
    interaction with them is recorded in a chronological log, so that
    statements such as "exactly k engine calls were made" are statements
    about the log of a run.

    Numbers that count iterations are integers ([Z]); settings that the
    agent only forwards to the engine are values of an abstract type. *)

From Stdlib Require Import ZArith List String Bool Lia.
Import ListNotations.

Set Implicit Arguments.
Local Open Scope string_scope.
Local Open Scope list_scope.
Local Open Scope Z_scope.

(** ** Messages *)

Inductive Role := system | user | assistant | tool.

Inductive ContentPart :=
| TextPart (text : string)
| OtherPart (type : string) (payload : string).

Inductive Content :=
| ContentString (s : string)
| ContentParts (parts : list ContentPart).

Record ModelMessage := { role : Role; content : Content }.

(** ** Engine results *)

(** [GenerateTextResult]: the fields of the engine's record that the agent
    reads ([text] and [response.messages]). *)
Record GenerateTextResult := {
  text : string;
  response_messages : list ModelMessage
}.

(** [StreamTextResult]: the live handle returned by [streamText]. *)
Record StreamTextResult := { textStream : list string }.

Inductive Error :=
| TypeError (message : string)
| Raised (what : string).

(** How an awaited call settles. *)
Inductive Settled (A : Type) :=
| Fulfilled (a : A)
| Rejected (e : Error).
Arguments Fulfilled {A} a.
Arguments Rejected {A} e.

(** An [AbortSignal] is a handle; whether it is aborted is read from the
    world at the moment the agent checks it. *)
Definition AbortSignal := nat.

(** ** Stop conditions *)

(** [IterationStopCondition], lines 68-71. *)
Record IterationStopCondition := { type : string; count : Z }.

(** [iterationCountIs], lines 76-78. *)
Definition iterationCountIs (count : Z) : IterationStopCondition :=
  {| type := "iteration-count"; count := count |}.

(** The engine's own stop condition: [stepCountIs n] or anything else the
    caller configured. *)
Inductive StopCondition (Value : Type) :=
| stepCountIs (n : Z)
| customStop (v : Value).
Arguments stepCountIs {Value} n.
Arguments customStop {Value} v.

(** ** The options object of an engine call

    One field per key that [generateText] / [streamText] is called with; a
    key that is absent or [undefined] is [None]. *)
Module Call.
Record t (Value : Type) := {
    model : Value;
    messages : list ModelMessage;
    tools : option Value;
    toolChoice : option Value;
    stopWhen : option (StopCondition Value);
    maxOutputTokens : option Value;
    temperature : option Value;
    topP : option Value;
    topK : option Value;
    presencePenalty : option Value;
    frequencyPenalty : option Value;
    stopSequences : option Value;
    seed : option Value;
    experimental_telemetry : option Value;
    activeTools : option Value;
    prepareStep : option Value;
    experimental_repairToolCall : option Value;
    providerOptions : option Value;
    experimental_context : option Value;
    abortSignal : option AbortSignal
  }.
End Call.

(** ** Verification *)

(** [VerifyCompletionResult]: [{ complete, reason? }]. *)
Record VerifyCompletionResult := {
  complete : bool;
  reason : option string
}.

(** The context object handed to [verifyCompletion], lines 235-240.  The
    predicate is taken to read [allResults], not to modify it. *)
Module Verify.
Record Context := {
    result : GenerateTextResult;
    iteration : Z;
    allResults : list GenerateTextResult;
    originalPrompt : string
  }.
End Verify.

(** An awaited caller-supplied function: it may change the world and it
    settles with a value or a rejection. *)
Definition Async (World A : Type) := World -> Settled A * World.

Inductive Instructions :=
| InstructionsString (s : string)
| InstructionsMessage (m : ModelMessage)
| InstructionsArray (ms : list ModelMessage).

(** ** Settings *)

Module Settings.
(** Modelled from the spec: the declaration [RalphLoopAgentSettings]
    ([ralph-loop-agent-settings.ts]) is not among the sources; the record has
    one field per [this.settings.x] that the agent reads (section 6,
    configuration surface), optional unless the engine requires it. *)
Record t (Value World : Type) := {
    id : option string;
    model : Value;
    instructions : option Instructions;
    tools : option Value;
    toolChoice : option Value;
    stopWhen : option IterationStopCondition;
    toolStopWhen : option (StopCondition Value);
    maxOutputTokens : option Value;
    temperature : option Value;
    topP : option Value;
    topK : option Value;
    presencePenalty : option Value;
    frequencyPenalty : option Value;
    stopSequences : option Value;
    seed : option Value;
    experimental_telemetry : option Value;
    activeTools : option Value;
    prepareStep : option Value;
    experimental_repairToolCall : option Value;
    providerOptions : option Value;
    experimental_context : option Value;
    onIterationStart : option (Z -> Async World unit);
    onIterationEnd : option (Z -> Z -> GenerateTextResult -> Async World unit);
    verifyCompletion : option (Verify.Context -> Async World VerifyCompletionResult)
  }.
End Settings.

(** [RalphLoopAgentCallParameters], lines 18-28. *)
Record RalphLoopAgentCallParameters := {
  prompt : string;
  abortSignal : option AbortSignal
}.

Inductive CompletionReason := verified | max_iterations | aborted.

(** [RalphLoopAgentResult], lines 33-63. *)
Module Result.
Record t := {
    text : string;
    iterations : Z;
    completionReason : CompletionReason;
    reason : option string;
    result : GenerateTextResult;
    allResults : list GenerateTextResult
  }.
End Result.

(** ** The environment and the log of a run *)

Record Env (Value World : Type) := {
  (** [signal.aborted] *)
  env_aborted : AbortSignal -> World -> bool;
  (** [Date.now()] *)
  env_now : World -> Z;
  (** what the rest of the program does while the agent awaits a value that
      is already there ([await undefined]) *)
  env_tick : World -> World;
  (** [generateText(options)] *)
  env_generateText : Call.t Value -> Async World GenerateTextResult;
  (** [streamText(options)]: hands back its handle at once; a failure of the
      model shows while the stream is consumed, outside the agent *)
  env_streamText : Call.t Value -> World -> StreamTextResult * World
}.

Inductive Event (Value : Type) :=
| EvAbortCheck (seen : bool)
| EvIterationStart (iteration : Z) (out : Settled unit)
| EvGenerateText (options : Call.t Value) (out : Settled GenerateTextResult)
| EvIterationEnd (iteration duration : Z) (result : GenerateTextResult)
                 (out : Settled unit)
| EvVerify (context : Verify.Context) (out : Settled VerifyCompletionResult)
| EvStreamText (options : Call.t Value) (handle : StreamTextResult).
Arguments EvAbortCheck {Value} seen.
Arguments EvIterationStart {Value} iteration out.
Arguments EvIterationEnd {Value} iteration duration result out.
Arguments EvVerify {Value} context out.

Record Sys (Value World : Type) := {
  world : World;
  log : list (Event Value)
}.

(** ** The monad of agent code: world and log passing, with exceptions *)

Inductive Outcome (A : Type) :=
| Returned (a : A)
| Threw (e : Error)
| FuelExhausted.
Arguments Returned {A} a.
Arguments Threw {A} e.
Arguments FuelExhausted {A}.

Definition M (Value World A : Type) := Sys Value World -> Outcome A * Sys Value World.

Section Monad.
Context {Value World : Type}.

Definition ret {A} (a : A) : M Value World A := fun s => (Returned a, s).

Definition bind {A B} (m : M Value World A) (k : A -> M Value World B)
  : M Value World B :=
  fun s =>
    match m s with
    | (Returned a, s') => k a s'
    | (Threw e, s') => (Threw e, s')
    | (FuelExhausted, s') => (FuelExhausted, s')
    end.

Definition throw {A} (e : Error) : M Value World A := fun s => (Threw e, s).

Definition out_of_fuel {A} : M Value World A := fun s => (FuelExhausted, s).

(** Append an event to the log and move to world [w]. *)
Definition emit (e : Event Value) (s : Sys Value World) (w : World)
  : Sys Value World :=
  {| world := w; log := log s ++ [e] |}.

(** [await f(args)] for a caller-supplied or engine function [f]; the call
    and how it settled are logged by [ev]. *)
Definition await {A} (f : Async World A) (ev : Settled A -> Event Value)
  : M Value World A :=
  fun s =>
    let (out, w) := f (world s) in
    match out with
    | Fulfilled a => (Returned a, emit (ev out) s w)
    | Rejected e => (Threw e, emit (ev out) s w)
    end.

End Monad.

Declare Scope agent_scope.
Delimit Scope agent_scope with agent.
Notation "x <- c ;; k" := (bind c (fun x => k))
  (at level 100, c at next level, right associativity) : agent_scope.

(** ** Local variables of the two methods *)

(** The [let]/[const] bindings of [loop] that change across iterations,
    lines 145-149. *)
Module LoopVars.
Record t := {
  allResults : list GenerateTextResult;
  currentMessages : list ModelMessage;
  iteration : Z;
  completionReason : CompletionReason;
  reason : option string
}.
End LoopVars.

(** The same for [stream], lines 283-285. *)
Module StreamVars.
Record t := {
  allResults : list GenerateTextResult;
  currentMessages : list ModelMessage;
  iteration : Z
}.
End StreamVars.

(** How one pass of the [while] body of [loop] ends. *)
Inductive LoopFlow :=
| Continue (vars : LoopVars.t)
| Break (vars : LoopVars.t).

(** How one pass of the [while] body of [stream] ends; [StreamReturn] is the
    [return streamText(...)] inside the body and keeps the variables as they
    were at that point. *)
Inductive StreamFlow :=
| StreamContinue (vars : StreamVars.t)
| StreamBreak (vars : StreamVars.t)
| StreamReturn (handle : StreamTextResult) (vars : StreamVars.t).

(** ** Messages built by the agent *)

(** Lines 154-157. *)
Definition initialUserMessage (prompt : string) : ModelMessage :=
  {| role := user; content := ContentParts [TextPart prompt] |}.

(** Lines 184-192 (and 314-322, 394-402). *)
Definition continuationMessage : ModelMessage :=
  {| role := user;
     content := ContentParts
       [TextPart "Continue working on the task. The previous attempt was not complete."] |}.

(** Lines 250-258 (and 377-380). *)
Definition feedbackMessage (reason : string) : ModelMessage :=
  {| role := user; content := ContentParts [TextPart (String.append "Feedback: " reason)] |}.

(** Lines 176-193: the outbound list of an iteration. *)
Definition iterationMessages (systemMessages : list ModelMessage) (prompt : string)
    (currentMessages : list ModelMessage) (iteration : Z) : list ModelMessage :=
  let messages := systemMessages ++ [initialUserMessage prompt] ++ currentMessages in
  if iteration >? 1 then messages ++ [continuationMessage] else messages.

(** [array[i]] for an integer index: [undefined] outside the array. *)
Definition array_at {A} (l : list A) (i : Z) : option A :=
  if i <? 0 then None else nth_error l (Z.to_nat i).

(** ** The agent *)

Section Agent.
Context {Value World : Type}.
Variable env : Env Value World.
Variable settings : Settings.t Value World.

Local Open Scope agent_scope.

(** [get maxIterations], lines 130-136. *)
Definition maxIterations : Z :=
  match Settings.stopWhen settings with
  | Some stopWhen =>
      if String.eqb (type stopWhen) "iteration-count" then count stopWhen else 10
  | None => 10
  end.

(** [buildSystemMessages], lines 432-448. *)
Definition buildSystemMessages : list ModelMessage :=
  match Settings.instructions settings with
  | None => []
  | Some (InstructionsString s) =>
      if String.eqb s "" then [] else [{| role := system; content := ContentString s |}]
  | Some (InstructionsArray ms) => ms
  | Some (InstructionsMessage m) => [m]
  end.

(** [abortSignal?.aborted], read at the top of a pass. *)
Definition readAborted (signal : option AbortSignal) : M Value World bool :=
  fun s =>
    let seen := match signal with
                | Some a => env_aborted env a (world s)
                | None => false
                end in
    (Returned seen, emit (EvAbortCheck seen) s (world s)).

(** [Date.now()]. *)
Definition dateNow : M Value World Z :=
  fun s => (Returned (env_now env (world s)), s).

(** [await undefined]: nothing is called, the rest of the program runs. *)
Definition yield : M Value World unit :=
  fun s => (Returned tt, {| world := env_tick env (world s); log := log s |}).

(** [await this.settings.onIterationStart?.({ iteration })]. *)
Definition callOnIterationStart (iteration : Z) : M Value World unit :=
  match Settings.onIterationStart settings with
  | Some f => await (f iteration) (EvIterationStart iteration)
  | None => yield
  end.

(** [await this.settings.onIterationEnd?.({ iteration, duration, result })]. *)
Definition callOnIterationEnd (iteration duration : Z) (result : GenerateTextResult)
  : M Value World unit :=
  match Settings.onIterationEnd settings with
  | Some f => await (f iteration duration result)
                    (EvIterationEnd iteration duration result)
  | None => yield
  end.

(** [await generateText(options)]. *)
Definition generateText (options : Call.t Value) : M Value World GenerateTextResult :=
  await (env_generateText env options) (EvGenerateText options).

(** [streamText(options)]. *)
Definition streamText (options : Call.t Value) : M Value World StreamTextResult :=
  fun s =>
    let (handle, w) := env_streamText env options (world s) in
    (Returned handle, emit (EvStreamText options handle) s w).

(** [this.settings.toolStopWhen ?? stepCountIs(20)]. *)
Definition toolLoopStop : StopCondition Value :=
  match Settings.toolStopWhen settings with
  | Some c => c
  | None => stepCountIs 20
  end.

(** The options object of lines 196-217, 325-346 and 405-426: all three are
    written out with the same keys. *)
Definition engineOptions (messages : list ModelMessage)
    (abortSignal : option AbortSignal) : Call.t Value :=
  {| Call.model := Settings.model settings;
     Call.messages := messages;
     Call.tools := Settings.tools settings;
     Call.toolChoice := Settings.toolChoice settings;
     Call.stopWhen := Some toolLoopStop;
     Call.maxOutputTokens := Settings.maxOutputTokens settings;
     Call.temperature := Settings.temperature settings;
     Call.topP := Settings.topP settings;
     Call.topK := Settings.topK settings;
     Call.presencePenalty := Settings.presencePenalty settings;
     Call.frequencyPenalty := Settings.frequencyPenalty settings;
     Call.stopSequences := Settings.stopSequences settings;
     Call.seed := Settings.seed settings;
     Call.experimental_telemetry := Settings.experimental_telemetry settings;
     Call.activeTools := Settings.activeTools settings;
     Call.prepareStep := Settings.prepareStep settings;
     Call.experimental_repairToolCall := Settings.experimental_repairToolCall settings;
     Call.providerOptions := Settings.providerOptions settings;
     Call.experimental_context := Settings.experimental_context settings;
     Call.abortSignal := abortSignal |}.

(** The options object of lines 364-373, the streaming call after an early
    completion: eight keys only. *)
Definition earlyStreamOptions (messages : list ModelMessage)
    (abortSignal : option AbortSignal) : Call.t Value :=
  {| Call.model := Settings.model settings;
     Call.messages := messages;
     Call.tools := Settings.tools settings;
     Call.toolChoice := Settings.toolChoice settings;
     Call.stopWhen := Some toolLoopStop;
     Call.maxOutputTokens := Settings.maxOutputTokens settings;
     Call.temperature := Settings.temperature settings;
     Call.topP := None;
     Call.topK := None;
     Call.presencePenalty := None;
     Call.frequencyPenalty := None;
     Call.stopSequences := None;
     Call.seed := None;
     Call.experimental_telemetry := None;
     Call.activeTools := None;
     Call.prepareStep := None;
     Call.experimental_repairToolCall := None;
     Call.providerOptions := None;
     Call.experimental_context := None;
     Call.abortSignal := abortSignal |}.

(** *** [loop], lines 141-273 *)

(** One pass of the [while] body, lines 163-260. *)
Definition loop_body (prompt : string) (abortSignal : option AbortSignal)
    (systemMessages : list ModelMessage) (vars : LoopVars.t)
  : M Value World LoopFlow :=
  seen <- readAborted abortSignal ;;
  if seen : bool then
    ret (Break {| LoopVars.allResults := LoopVars.allResults vars;
                  LoopVars.currentMessages := LoopVars.currentMessages vars;
                  LoopVars.iteration := LoopVars.iteration vars;
                  LoopVars.completionReason := aborted;
                  LoopVars.reason := LoopVars.reason vars |})
  else
    let iteration := LoopVars.iteration vars + 1 in
    startTime <- dateNow ;;
    _ <- callOnIterationStart iteration ;;
    let messages :=
      iterationMessages systemMessages prompt (LoopVars.currentMessages vars) iteration in
    result <- generateText (engineOptions messages abortSignal) ;;
    let allResults := LoopVars.allResults vars ++ [result] in
    let currentMessages := LoopVars.currentMessages vars ++ response_messages result in
    endTime <- dateNow ;;
    let duration := endTime - startTime in
    _ <- callOnIterationEnd iteration duration result ;;
    match Settings.verifyCompletion settings with
    | Some verifyCompletion =>
        let context := {| Verify.result := result;
                          Verify.iteration := iteration;
                          Verify.allResults := allResults;
                          Verify.originalPrompt := prompt |} in
        verification <- await (verifyCompletion context) (EvVerify context) ;;
        if complete verification then
          ret (Break {| LoopVars.allResults := allResults;
                        LoopVars.currentMessages := currentMessages;
                        LoopVars.iteration := iteration;
                        LoopVars.completionReason := verified;
                        LoopVars.reason := reason verification |})
        else
          let currentMessages :=
            match reason verification with
            | Some r =>
                if negb (String.eqb r "") && negb (complete verification)
                then currentMessages ++ [feedbackMessage r]
                else currentMessages
            | None => currentMessages
            end in
          ret (Continue {| LoopVars.allResults := allResults;
                           LoopVars.currentMessages := currentMessages;
                           LoopVars.iteration := iteration;
                           LoopVars.completionReason := LoopVars.completionReason vars;
                           LoopVars.reason := LoopVars.reason vars |})
    | None =>
        ret (Continue {| LoopVars.allResults := allResults;
                         LoopVars.currentMessages := currentMessages;
                         LoopVars.iteration := iteration;
                         LoopVars.completionReason := LoopVars.completionReason vars;
                         LoopVars.reason := LoopVars.reason vars |})
    end.

(** [while (iteration < maxIterations) { ... }], line 162.  Each pass that
    continues raises [iteration] by one, so [fuel] passes are enough when
    [fuel] is at least [maxIterations - iteration] (see [loop_while_fuel]). *)
Fixpoint loop_while (fuel : nat) (prompt : string) (abortSignal : option AbortSignal)
    (systemMessages : list ModelMessage) (vars : LoopVars.t)
  : M Value World LoopVars.t :=
  if LoopVars.iteration vars <? maxIterations then
    match fuel with
    | O => out_of_fuel
    | S fuel' =>
        flow <- loop_body prompt abortSignal systemMessages vars ;;
        match flow with
        | Continue vars' => loop_while fuel' prompt abortSignal systemMessages vars'
        | Break vars' => ret vars'
        end
    end
  else ret vars.

(** [loop({ prompt, abortSignal })]. *)
Definition loop (params : RalphLoopAgentCallParameters)
  : M Value World Result.t :=
  let vars0 := {| LoopVars.allResults := [];
                  LoopVars.currentMessages := [];
                  LoopVars.iteration := 0;
                  LoopVars.completionReason := max_iterations;
                  LoopVars.reason := None |} in
  let systemMessages := buildSystemMessages in
  vars <- loop_while (Z.to_nat maxIterations) (prompt params) (abortSignal params)
                     systemMessages vars0 ;;
  let allResults := LoopVars.allResults vars in
  match array_at allResults (Z.of_nat (List.length allResults) - 1) with
  | None =>
      (* [finalResult] is [undefined]; reading [finalResult.text] throws *)
      throw (TypeError "Cannot read properties of undefined (reading 'text')")
  | Some finalResult =>
      ret {| Result.text := text finalResult;
             Result.iterations := LoopVars.iteration vars;
             Result.completionReason := LoopVars.completionReason vars;
             Result.reason := LoopVars.reason vars;
             Result.result := finalResult;
             Result.allResults := allResults |}
  end.

(** *** [stream], lines 279-427 *)

(** One pass of the [while] body, lines 298-382. *)
Definition stream_body (prompt : string) (abortSignal : option AbortSignal)
    (systemMessages : list ModelMessage) (vars : StreamVars.t)
  : M Value World StreamFlow :=
  seen <- readAborted abortSignal ;;
  if seen : bool then ret (StreamBreak vars)
  else
    let iteration := StreamVars.iteration vars + 1 in
    startTime <- dateNow ;;
    _ <- callOnIterationStart iteration ;;
    let messages :=
      iterationMessages systemMessages prompt (StreamVars.currentMessages vars) iteration in
    result <- generateText (engineOptions messages abortSignal) ;;
    let allResults := StreamVars.allResults vars ++ [result] in
    let currentMessages := StreamVars.currentMessages vars ++ response_messages result in
    endTime <- dateNow ;;
    let duration := endTime - startTime in
    _ <- callOnIterationEnd iteration duration result ;;
    match Settings.verifyCompletion settings with
    | Some verifyCompletion =>
        let context := {| Verify.result := result;
                          Verify.iteration := iteration;
                          Verify.allResults := allResults;
                          Verify.originalPrompt := prompt |} in
        verification <- await (verifyCompletion context) (EvVerify context) ;;
        if complete verification then
          handle <- streamText
            (earlyStreamOptions
               (systemMessages ++ [initialUserMessage prompt] ++ currentMessages)
               abortSignal) ;;
          ret (StreamReturn handle
                 {| StreamVars.allResults := allResults;
                    StreamVars.currentMessages := currentMessages;
                    StreamVars.iteration := iteration |})
        else
          let currentMessages :=
            match reason verification with
            | Some r =>
                if negb (String.eqb r "")
                then currentMessages ++ [feedbackMessage r]
                else currentMessages
            | None => currentMessages
            end in
          ret (StreamContinue {| StreamVars.allResults := allResults;
                                 StreamVars.currentMessages := currentMessages;
                                 StreamVars.iteration := iteration |})
    | None =>
        ret (StreamContinue {| StreamVars.allResults := allResults;
                               StreamVars.currentMessages := currentMessages;
                               StreamVars.iteration := iteration |})
    end.

(** [while (iteration < maxIterations - 1) { ... }], line 297. *)
Fixpoint stream_while (fuel : nat) (prompt : string) (abortSignal : option AbortSignal)
    (systemMessages : list ModelMessage) (vars : StreamVars.t)
  : M Value World StreamFlow :=
  if StreamVars.iteration vars <? maxIterations - 1 then
    match fuel with
    | O => out_of_fuel
    | S fuel' =>
        flow <- stream_body prompt abortSignal systemMessages vars ;;
        match flow with
        | StreamContinue vars' =>
            stream_while fuel' prompt abortSignal systemMessages vars'
        | StreamBreak vars' => ret (StreamBreak vars')
        | StreamReturn handle vars' => ret (StreamReturn handle vars')
        end
    end
  else ret (StreamBreak vars).

(** [stream({ prompt, abortSignal })], together with the local variables as
    they stand when the method returns. *)
Definition stream_frame (params : RalphLoopAgentCallParameters)
  : M Value World (StreamTextResult * StreamVars.t) :=
  let vars0 := {| StreamVars.allResults := [];
                  StreamVars.currentMessages := [];
                  StreamVars.iteration := 0 |} in
  let systemMessages := buildSystemMessages in
  flow <- stream_while (Z.to_nat (maxIterations - 1)) (prompt params)
                       (abortSignal params) systemMessages vars0 ;;
  match flow with
  | StreamReturn handle vars => ret (handle, vars)
  | StreamContinue vars | StreamBreak vars =>
      (* lines 385-426: stream the final iteration *)
      let iteration := StreamVars.iteration vars + 1 in
      let finalMessages :=
        iterationMessages systemMessages (prompt params)
                          (StreamVars.currentMessages vars) iteration in
      handle <- streamText (engineOptions finalMessages (abortSignal params)) ;;
      ret (handle, {| StreamVars.allResults := StreamVars.allResults vars;
                      StreamVars.currentMessages := StreamVars.currentMessages vars;
                      StreamVars.iteration := iteration |})
  end.

Definition stream (params : RalphLoopAgentCallParameters)
  : M Value World StreamTextResult :=
  r <- stream_frame params ;; ret (fst r).

End Agent.

(** A run starts in some world with an empty log. *)
Definition start {Value World : Type} (w : World) : Sys Value World :=
  {| world := w; log := [] |}.

(** ** Reading a log *)

Section Logs.
Context {Value : Type}.

(** Blocking engine calls made, whether they settled well or not. *)
Fixpoint generate_calls (l : list (Event Value)) : nat :=
  match l with
  | [] => O
  | EvGenerateText _ _ :: l' => S (generate_calls l')
  | _ :: l' => generate_calls l'
  end.

(** Streaming engine calls made. *)
Fixpoint stream_calls (l : list (Event Value)) : nat :=
  match l with
  | [] => O
  | EvStreamText _ _ :: l' => S (stream_calls l')
  | _ :: l' => stream_calls l'
  end.

(** The records of the blocking engine calls that completed, oldest first. *)
Fixpoint results_of (l : list (Event Value)) : list GenerateTextResult :=
  match l with
  | [] => []
  | EvGenerateText _ (Fulfilled r) :: l' => r :: results_of l'
  | _ :: l' => results_of l'
  end.

(** What a verification outcome adds to the conversation. *)
Definition feedback_of (v : VerifyCompletionResult) : list ModelMessage :=
  if complete v then []
  else match reason v with
       | Some r => if String.eqb r "" then [] else [feedbackMessage r]
       | None => []
       end.

(** The conversation that a log accounts for: the response messages of each
    completed blocking call and the feedback of each verification, in the
    order in which they happened. *)
Fixpoint conversation_of (l : list (Event Value)) : list ModelMessage :=
  match l with
  | [] => []
  | EvGenerateText _ (Fulfilled r) :: l' => response_messages r ++ conversation_of l'
  | EvVerify _ (Fulfilled v) :: l' => feedback_of v ++ conversation_of l'
  | _ :: l' => conversation_of l'
  end.

(** No collaborator failed and the abort flag was never seen set. *)
Definition undisturbed (e : Event Value) : bool :=
  match e with
  | EvAbortCheck seen => negb seen
  | EvIterationStart _ (Rejected _) => false
  | EvGenerateText _ (Rejected _) => false
  | EvIterationEnd _ _ _ (Rejected _) => false
  | EvVerify _ (Rejected _) => false
  | _ => true
  end.

(** Calls of the predicate, however they settled. *)
Fixpoint verifications (l : list (Event Value)) : nat :=
  match l with
  | [] => O
  | EvVerify _ _ :: l' => S (verifications l')
  | _ :: l' => verifications l'
  end.

(** Some verification in the log reported completion. *)
Fixpoint completed (l : list (Event Value)) : bool :=
  match l with
  | [] => false
  | EvVerify _ (Fulfilled v) :: l' => complete v || completed l'
  | _ :: l' => completed l'
  end.

(** Some abort check in the log saw the signal set. *)
Fixpoint abort_seen (l : list (Event Value)) : bool :=
  match l with
  | [] => false
  | EvAbortCheck seen :: l' => seen || abort_seen l'
  | _ :: l' => abort_seen l'
  end.

(** Calls of collaborators that were rejected. *)
Fixpoint failures (l : list (Event Value)) : nat :=
  match l with
  | [] => O
  | EvIterationStart _ (Rejected _) :: l' => S (failures l')
  | EvGenerateText _ (Rejected _) :: l' => S (failures l')
  | EvIterationEnd _ _ _ (Rejected _) :: l' => S (failures l')
  | EvVerify _ (Rejected _) :: l' => S (failures l')
  | _ :: l' => failures l'
  end.

(** The options of an engine call, blocking or streaming. *)
Definition call_options (e : Event Value) : option (Call.t Value) :=
  match e with
  | EvGenerateText options _ => Some options
  | EvStreamText options _ => Some options
  | _ => None
  end.

(** [P pre e] holds of every event [e] of the log, [pre] being the events
    before it. *)
Definition each_event (P : list (Event Value) -> Event Value -> Prop)
    (l : list (Event Value)) : Prop :=
  forall pre e post, l = pre ++ e :: post -> P pre e.

End Logs.

(** ** What one pass and one run can log

    The relations below list, case by case, the events that a pass of the
    [while] body can add to the log and how the pass ends.  They are derived
    from the functions ([loop_body_pass], [loop_while_passes], ...) and carry
    no information about the world, so the theorems about runs hold for
    every engine, callback and predicate. *)

Section Runs.
Context {Value World : Type}.
Variable settings : Settings.t Value World.
Variable task : string.
Variable signal : option AbortSignal.

(** The event of [onIterationStart], when the callback is configured. *)
Definition start_log (i : Z) (out : Settled unit) : list (Event Value) :=
  match Settings.onIterationStart settings with
  | Some _ => [EvIterationStart i out]
  | None => []
  end.

(** The event of [onIterationEnd], when the callback is configured. *)
Definition end_log (i d : Z) (r : GenerateTextResult) (out : Settled unit)
  : list (Event Value) :=
  match Settings.onIterationEnd settings with
  | Some _ => [EvIterationEnd i d r out]
  | None => []
  end.

(** The options of the blocking call of iteration [i]. *)
Definition pass_options (conversation : list ModelMessage) (i : Z) : Call.t Value :=
  engineOptions settings
    (iterationMessages (buildSystemMessages settings) task conversation i) signal.

(** The events of a pass up to and including [onIterationEnd], when nothing
    went wrong. *)
Definition pass_log (conversation : list ModelMessage) (i d : Z)
    (r : GenerateTextResult) : list (Event Value) :=
  EvAbortCheck false :: start_log i (Fulfilled tt)
    ++ [EvGenerateText (pass_options conversation i) (Fulfilled r)]
    ++ end_log i d r (Fulfilled tt).

(** The context given to the predicate in iteration [i]. *)
Definition pass_context (results : list GenerateTextResult) (i : Z)
    (r : GenerateTextResult) : Verify.Context :=
  {| Verify.result := r;
     Verify.iteration := i;
     Verify.allResults := results ++ [r];
     Verify.originalPrompt := task |}.

(** A pass that threw before the predicate settled well: the events and the
    error.  Shared by [loop] and [stream], whose bodies agree up to there. *)
Inductive PassThrows (conversation : list ModelMessage)
    (results : list GenerateTextResult) (i : Z)
  : list (Event Value) -> Error -> Prop :=
| ThrowsStart e :
    Settings.onIterationStart settings <> None ->
    PassThrows conversation results i
      [EvAbortCheck false; EvIterationStart i (Rejected e)] e
| ThrowsEngine e :
    PassThrows conversation results i
      (EvAbortCheck false :: start_log i (Fulfilled tt)
         ++ [EvGenerateText (pass_options conversation i) (Rejected e)]) e
| ThrowsEnd r d e :
    Settings.onIterationEnd settings <> None ->
    PassThrows conversation results i
      (EvAbortCheck false :: start_log i (Fulfilled tt)
         ++ [EvGenerateText (pass_options conversation i) (Fulfilled r);
             EvIterationEnd i d r (Rejected e)]) e
| ThrowsVerify r d e :
    Settings.verifyCompletion settings <> None ->
    PassThrows conversation results i
      (pass_log conversation i d r
         ++ [EvVerify (pass_context results i r) (Rejected e)]) e.

(** The three variables that [loop] and [stream] share are kept in a
    [StreamVars.t]; [shared] forgets the other two of [loop]. *)
Definition shared (vars : LoopVars.t) : StreamVars.t :=
  {| StreamVars.allResults := LoopVars.allResults vars;
     StreamVars.currentMessages := LoopVars.currentMessages vars;
     StreamVars.iteration := LoopVars.iteration vars |}.

(** The variables after a pass that got record [r] and then feedback [fb]. *)
Definition after_pass (vars : StreamVars.t) (r : GenerateTextResult)
    (fb : list ModelMessage) : StreamVars.t :=
  {| StreamVars.allResults := StreamVars.allResults vars ++ [r];
     StreamVars.currentMessages :=
       (StreamVars.currentMessages vars ++ response_messages r) ++ fb;
     StreamVars.iteration := StreamVars.iteration vars + 1 |}.

(** How a pass of either body ends. *)
Inductive PassEnd :=
| PassAborted
| PassThrew (e : Error)
| PassVerified (v : VerifyCompletionResult) (vars' : StreamVars.t)
| PassContinues (vars' : StreamVars.t).

(** One pass of the [while] body, up to the point where [loop] and [stream]
    part ways: the events it logs and how it ends. *)
Inductive Pass (vars : StreamVars.t) : list (Event Value) -> PassEnd -> Prop :=
| PassAbort :
    Pass vars [EvAbortCheck true] PassAborted
| PassThrow d e :
    PassThrows (StreamVars.currentMessages vars) (StreamVars.allResults vars)
               (StreamVars.iteration vars + 1) d e ->
    Pass vars d (PassThrew e)
| PassVerify r d v :
    Settings.verifyCompletion settings <> None ->
    complete v = true ->
    Pass vars
      (pass_log (StreamVars.currentMessages vars) (StreamVars.iteration vars + 1) d r
         ++ [EvVerify (pass_context (StreamVars.allResults vars)
                                    (StreamVars.iteration vars + 1) r) (Fulfilled v)])
      (PassVerified v (after_pass vars r []))
| PassUnverified r d v :
    Settings.verifyCompletion settings <> None ->
    complete v = false ->
    Pass vars
      (pass_log (StreamVars.currentMessages vars) (StreamVars.iteration vars + 1) d r
         ++ [EvVerify (pass_context (StreamVars.allResults vars)
                                    (StreamVars.iteration vars + 1) r) (Fulfilled v)])
      (PassContinues (after_pass vars r (feedback_of v)))
| PassNoPredicate r d :
    Settings.verifyCompletion settings = None ->
    Pass vars
      (pass_log (StreamVars.currentMessages vars) (StreamVars.iteration vars + 1) d r)
      (PassContinues (after_pass vars r [])).

(** What the body of [loop] hands back after a pass, lines 164-167 and
    242-259. *)
Definition loop_flow (vars : LoopVars.t) (pe : PassEnd) : Outcome LoopFlow :=
  match pe with
  | PassAborted =>
      Returned (Break {| LoopVars.allResults := LoopVars.allResults vars;
                         LoopVars.currentMessages := LoopVars.currentMessages vars;
                         LoopVars.iteration := LoopVars.iteration vars;
                         LoopVars.completionReason := aborted;
                         LoopVars.reason := LoopVars.reason vars |})
  | PassThrew e => Threw e
  | PassVerified v vars' =>
      Returned (Break {| LoopVars.allResults := StreamVars.allResults vars';
                         LoopVars.currentMessages := StreamVars.currentMessages vars';
                         LoopVars.iteration := StreamVars.iteration vars';
                         LoopVars.completionReason := verified;
                         LoopVars.reason := reason v |})
  | PassContinues vars' =>
      Returned (Continue {| LoopVars.allResults := StreamVars.allResults vars';
                            LoopVars.currentMessages := StreamVars.currentMessages vars';
                            LoopVars.iteration := StreamVars.iteration vars';
                            LoopVars.completionReason := LoopVars.completionReason vars;
                            LoopVars.reason := LoopVars.reason vars |})
  end.

(** The options of the streaming call after an early completion. *)
Definition early_options (conversation : list ModelMessage) : Call.t Value :=
  earlyStreamOptions settings
    (buildSystemMessages settings ++ [initialUserMessage task] ++ conversation) signal.

(** What the body of [stream] hands back after a pass, lines 298-300 and
    362-381; [handle] is the handle of the early streaming call, if any. *)
Definition stream_flow (vars : StreamVars.t) (pe : PassEnd) (handle : StreamTextResult)
  : Outcome StreamFlow :=
  match pe with
  | PassAborted => Returned (StreamBreak vars)
  | PassThrew e => Threw e
  | PassVerified v vars' => Returned (StreamReturn handle vars')
  | PassContinues vars' => Returned (StreamContinue vars')
  end.

(** The event of the early streaming call, after a completed verification. *)
Definition early_log (pe : PassEnd) (handle : StreamTextResult) : list (Event Value) :=
  match pe with
  | PassVerified v vars' =>
      [EvStreamText (early_options (StreamVars.currentMessages vars')) handle]
  | _ => []
  end.

(** How the [while] loop of either method ends. *)
Inductive RunEnd :=
| RunBudget (vars : StreamVars.t)
| RunAborted (vars : StreamVars.t)
| RunVerified (v : VerifyCompletionResult) (vars : StreamVars.t)
| RunThrew (e : Error).

(** The passes of a [while] loop that runs while [iteration < limit]:
    [limit] is [maxIterations] in [loop] and [maxIterations - 1] in
    [stream]. *)
Inductive Passes (limit : Z) : StreamVars.t -> list (Event Value) -> RunEnd -> Prop :=
| PassesExit vars :
    limit <= StreamVars.iteration vars ->
    Passes limit vars [] (RunBudget vars)
| PassesAborted vars d :
    StreamVars.iteration vars < limit ->
    Pass vars d PassAborted ->
    Passes limit vars d (RunAborted vars)
| PassesThrew vars d e :
    StreamVars.iteration vars < limit ->
    Pass vars d (PassThrew e) ->
    Passes limit vars d (RunThrew e)
| PassesVerified vars d v vars' :
    StreamVars.iteration vars < limit ->
    Pass vars d (PassVerified v vars') ->
    Passes limit vars d (RunVerified v vars')
| PassesContinue vars d vars' d' re :
    StreamVars.iteration vars < limit ->
    Pass vars d (PassContinues vars') ->
    Passes limit vars' d' re ->
    Passes limit vars (d ++ d') re.

(** The variables of [loop] when its [while] loop is left. *)
Definition loop_end (vars : LoopVars.t) (re : RunEnd) : Outcome LoopVars.t :=
  match re with
  | RunBudget sv =>
      Returned {| LoopVars.allResults := StreamVars.allResults sv;
                  LoopVars.currentMessages := StreamVars.currentMessages sv;
                  LoopVars.iteration := StreamVars.iteration sv;
                  LoopVars.completionReason := LoopVars.completionReason vars;
                  LoopVars.reason := LoopVars.reason vars |}
  | RunAborted sv =>
      Returned {| LoopVars.allResults := StreamVars.allResults sv;
                  LoopVars.currentMessages := StreamVars.currentMessages sv;
                  LoopVars.iteration := StreamVars.iteration sv;
                  LoopVars.completionReason := aborted;
                  LoopVars.reason := LoopVars.reason vars |}
  | RunVerified v sv =>
      Returned {| LoopVars.allResults := StreamVars.allResults sv;
                  LoopVars.currentMessages := StreamVars.currentMessages sv;
                  LoopVars.iteration := StreamVars.iteration sv;
                  LoopVars.completionReason := verified;
                  LoopVars.reason := reason v |}
  | RunThrew e => Threw e
  end.

(** What [stream_while] hands back when the [while] loop of [stream] is
    left. *)
Definition stream_end (re : RunEnd) (handle : StreamTextResult) : Outcome StreamFlow :=
  match re with
  | RunBudget sv | RunAborted sv => Returned (StreamBreak sv)
  | RunVerified v sv => Returned (StreamReturn handle sv)
  | RunThrew e => Threw e
  end.

(** The streaming call that ends a run of [stream]: the early one after a
    completed verification (lines 364-373), the one of the final iteration
    otherwise (lines 386-426). *)
Definition closing_options (re : RunEnd) : option (Call.t Value) :=
  match re with
  | RunVerified v sv => Some (early_options (StreamVars.currentMessages sv))
  | RunBudget sv | RunAborted sv =>
      Some (pass_options (StreamVars.currentMessages sv) (StreamVars.iteration sv + 1))
  | RunThrew e => None
  end.

Definition early_end_log (re : RunEnd) (handle : StreamTextResult) : list (Event Value) :=
  match re with
  | RunVerified v sv =>
      [EvStreamText (early_options (StreamVars.currentMessages sv)) handle]
  | _ => []
  end.

(** The tail of [loop], lines 263-272. *)
Definition finalize (sv : StreamVars.t) (why : CompletionReason) (because : option string)
  : Outcome Result.t :=
  match array_at (StreamVars.allResults sv)
                 (Z.of_nat (List.length (StreamVars.allResults sv)) - 1) with
  | None => Threw (TypeError "Cannot read properties of undefined (reading 'text')")
  | Some finalResult =>
      Returned {| Result.text := text finalResult;
                  Result.iterations := StreamVars.iteration sv;
                  Result.completionReason := why;
                  Result.reason := because;
                  Result.result := finalResult;
                  Result.allResults := StreamVars.allResults sv |}
  end.

(** What [loop] gives for each way its [while] loop can end. *)
Definition loop_result (re : RunEnd) : Outcome Result.t :=
  match re with
  | RunBudget sv => finalize sv max_iterations None
  | RunAborted sv => finalize sv aborted None
  | RunVerified v sv => finalize sv verified (reason v)
  | RunThrew e => Threw e
  end.

(** The variables at the start of either method. *)
Definition vars0 : StreamVars.t :=
  {| StreamVars.allResults := [];
     StreamVars.currentMessages := [];
     StreamVars.iteration := 0 |}.

(** The variables agree with what the log [l] accounts for. *)
Record tallied (vars : StreamVars.t) (l : list (Event Value)) : Prop := {
  tallied_results : StreamVars.allResults vars = results_of l;
  tallied_messages : StreamVars.currentMessages vars = conversation_of l;
  tallied_iteration : StreamVars.iteration vars = Z.of_nat (generate_calls l);
  tallied_calls : List.length (results_of l) = generate_calls l;
  tallied_streams : stream_calls l = O
}.

(** With a predicate configured, every blocking call made so far has been
    followed by its verification. *)
Definition balanced (l : list (Event Value)) : Prop :=
  Settings.verifyCompletion settings <> None -> verifications l = generate_calls l.

(** The state between two passes. *)
Definition accounted (vars : StreamVars.t) (l : list (Event Value)) : Prop :=
  tallied vars l /\ balanced l /\ completed l = false.

(** What holds of an event [e] of a run, [pre] being the log before it:
    [onIterationStart] is told the number of the iteration; a blocking call
    is made with the options of its iteration, built from the
    conversation so far; a verification follows the blocking call of its
    iteration and is given that call's record and all records so far. *)
Definition Built (pre : list (Event Value)) (e : Event Value) : Prop :=
  match e with
  | EvIterationStart i _ => i = Z.of_nat (generate_calls pre) + 1
  | EvGenerateText options _ =>
      options = pass_options (conversation_of pre) (Z.of_nat (generate_calls pre) + 1)
      /\ balanced pre /\ completed pre = false
  | EvVerify context _ =>
      Settings.verifyCompletion settings <> None
      /\ completed pre = false
      /\ S (verifications pre) = generate_calls pre
      /\ List.length (results_of pre) = generate_calls pre
      /\ exists rs c,
           results_of pre = rs ++ [Verify.result context]
           /\ conversation_of pre = c ++ response_messages (Verify.result context)
           /\ context = pass_context rs (Z.of_nat (generate_calls pre))
                                     (Verify.result context)
  | _ => True
  end.

(** The same for a run of [stream], whose streaming call is the early one
    after a completed verification and the one of the final iteration
    otherwise. *)
Definition Closed (pre : list (Event Value)) (e : Event Value) : Prop :=
  match e with
  | EvStreamText options _ =>
      options = (if completed pre
                 then early_options (conversation_of pre)
                 else pass_options (conversation_of pre)
                                   (Z.of_nat (generate_calls pre) + 1))
      /\ balanced pre /\ stream_calls pre = O
  | _ => Built pre e
  end.

(** The variables of [stream] when it returns. *)
Definition closing_vars (re : RunEnd) : option StreamVars.t :=
  match re with
  | RunVerified v sv => Some sv
  | RunBudget sv | RunAborted sv =>
      Some {| StreamVars.allResults := StreamVars.allResults sv;
              StreamVars.currentMessages := StreamVars.currentMessages sv;
              StreamVars.iteration := StreamVars.iteration sv + 1 |}
  | RunThrew e => None
  end.

End Runs.

(** ** Observing a run *)

Section Observing.
Context {Value World : Type}.
Variable env : Env Value World.
Variable settings : Settings.t Value World.
Variable params : RalphLoopAgentCallParameters.
Variable w : World.

(** How [loop], called in world [w], ends. *)
Definition loop_outcome : Outcome Result.t :=
  fst (loop env settings params (start w)).

(** What [loop], called in world [w], logs. *)
Definition loop_log : list (Event Value) :=
  log (snd (loop env settings params (start w))).

(** How [stream], called in world [w], ends. *)
Definition stream_outcome : Outcome StreamTextResult :=
  fst (stream env settings params (start w)).

(** What [stream], called in world [w], logs. *)
Definition stream_log : list (Event Value) :=
  log (snd (stream env settings params (start w))).

(** The local variables of [stream] when it returns. *)
Definition stream_vars : option StreamVars.t :=
  match fst (stream_frame env settings params (start w)) with
  | Returned (_, vars) => Some vars
  | _ => None
  end.

(** The outbound list of iteration [i], written out message by message:
    the system messages, one user message whose only part is the text of
    the prompt, the conversation, and, when [i > 1], one user message whose
    only part is the text of the continuation directive. *)
Definition outbound (conversation : list ModelMessage) (i : Z) : list ModelMessage :=
  buildSystemMessages settings
    ++ [{| role := user; content := ContentParts [TextPart (prompt params)] |}]
    ++ conversation
    ++ (if i >? 1
        then [{| role := user;
                 content := ContentParts
                   [TextPart "Continue working on the task. The previous attempt was not complete."] |}]
        else []).

(** Feedback reaches the next engine call: when a verification in the log
    reported [complete: false] with a non-empty reason [r], the conversation
    before it ended with the response messages of the record it judged, and
    the first engine call after it, blocking or streaming, is sent the
    system messages, the user message of the prompt, that conversation, the
    user message with the text "Feedback: " followed by [r], and the user
    message of the continuation directive, in this order. *)
Definition feedback_reaches_next_call (l : list (Event Value)) : Prop :=
  forall pre context v r mid call options post,
    l = pre ++ EvVerify context (Fulfilled v) :: mid ++ call :: post ->
    complete v = false ->
    reason v = Some r ->
    r <> "" ->
    generate_calls mid = O ->
    stream_calls mid = O ->
    call_options call = Some options ->
    exists c,
      conversation_of pre = c ++ response_messages (Verify.result context)
      /\ Call.messages options
         = buildSystemMessages settings
             ++ [{| role := user; content := ContentParts [TextPart (prompt params)] |}]
             ++ c ++ response_messages (Verify.result context)
             ++ [{| role := user;
                    content := ContentParts [TextPart (String.append "Feedback: " r)] |}]
             ++ [{| role := user;
                    content := ContentParts
                      [TextPart "Continue working on the task. The previous attempt was not complete."] |}].

End Observing.

(** The variables that a pass of [loop] hands on. *)
Definition flow_vars (flow : LoopFlow) : LoopVars.t :=
  match flow with
  | Continue vars => vars
  | Break vars => vars
  end.

(** ** A small world to run the agent in

    The engine answers its n-th call with "draft n"; it can be told to fail
    at some call, and signal 0 can be told to be aborted once so many calls
    have been made. *)

Record TestWorld := {
  calls_made : nat;
  time : Z;
  abort_from : option nat;
  fail_at : option nat
}.

Definition quiet_world : TestWorld :=
  {| calls_made := 0; time := 1000; abort_from := None; fail_at := None |}.

Definition aborted_world : TestWorld :=
  {| calls_made := 0; time := 1000; abort_from := Some O; fail_at := None |}.

Definition digit (n : nat) : string :=
  String (Ascii.ascii_of_nat (48 + n)) EmptyString.

(** The record of the engine's n-th call. *)
Definition draft (n : nat) : GenerateTextResult :=
  {| text := String.append "draft " (digit n);
     response_messages :=
       [{| role := assistant;
           content := ContentString (String.append "draft " (digit n)) |}] |}.

Definition test_engine (options : Call.t string) : Async TestWorld GenerateTextResult :=
  fun w =>
    let n := S (calls_made w) in
    let w' := {| calls_made := n; time := time w + 5;
                 abort_from := abort_from w; fail_at := fail_at w |} in
    match fail_at w with
    | Some k =>
        if Nat.eqb k n then (Rejected (Raised "engine failure"), w')
        else (Fulfilled (draft n), w')
    | None => (Fulfilled (draft n), w')
    end.

Definition test_env : Env string TestWorld :=
  {| env_aborted := fun signal w =>
       match signal, abort_from w with
       | O, Some k => Nat.leb k (calls_made w)
       | _, _ => false
       end;
     env_now := time;
     env_tick := fun w => w;
     env_generateText := test_engine;
     env_streamText := fun options w => ({| textStream := ["final"; " answer"] |}, w) |}.

(** A predicate that reports completion in iteration [k] with reason "done"
    and asks for more before that. *)
Definition done_in (k : Z) (context : Verify.Context)
  : Async TestWorld VerifyCompletionResult :=
  fun w =>
    if Verify.iteration context =? k
    then (Fulfilled {| complete := true; reason := Some "done" |}, w)
    else (Fulfilled {| complete := false; reason := Some "add tests" |}, w).

Definition test_settings (budget : Z)
    (verify : option (Verify.Context -> Async TestWorld VerifyCompletionResult))
  : Settings.t string TestWorld :=
  {| Settings.id := None;
     Settings.model := "test-model";
     Settings.instructions := Some (InstructionsString "You are a helpful assistant.");
     Settings.tools := None;
     Settings.toolChoice := None;
     Settings.stopWhen := Some (iterationCountIs budget);
     Settings.toolStopWhen := None;
     Settings.maxOutputTokens := None;
     Settings.temperature := None;
     Settings.topP := Some "0.9";
     Settings.topK := None;
     Settings.presencePenalty := None;
     Settings.frequencyPenalty := None;
     Settings.stopSequences := None;
     Settings.seed := Some "7";
     Settings.experimental_telemetry := None;
     Settings.activeTools := None;
     Settings.prepareStep := None;
     Settings.experimental_repairToolCall := None;
     Settings.providerOptions := None;
     Settings.experimental_context := None;
     Settings.onIterationStart := None;
     Settings.onIterationEnd := None;
     Settings.verifyCompletion := verify |}.

Definition test_params : RalphLoopAgentCallParameters :=
  {| prompt := "Summarize X"; abortSignal := Some O |}.

(** What the predicate is given in the second iteration of a run in the
    small world. *)
Definition second_context : Verify.Context :=
  {| Verify.result := draft 2;
     Verify.iteration := 2;
     Verify.allResults := [draft 1; draft 2];
     Verify.originalPrompt := "Summarize X" |}.

(** What it is given in the first. *)
Definition first_context : Verify.Context :=
  {| Verify.result := draft 1;
     Verify.iteration := 1;
     Verify.allResults := [draft 1];
     Verify.originalPrompt := "Summarize X" |}.

(** The settings of the scenario "budget 5, done in the second iteration",
    and the options of its two blocking calls. *)
Definition scenario : Settings.t string TestWorld :=
  test_settings 5 (Some (done_in 2)).

Definition first_options : Call.t string :=
  engineOptions scenario (outbound scenario test_params [] 1) (Some O).

Definition second_options : Call.t string :=
  engineOptions scenario
    (outbound scenario test_params
       (response_messages (draft 1) ++ [feedbackMessage "add tests"]) 2)
    (Some O).

(** The handle that the engine of the small world gives. *)
Definition test_handle : StreamTextResult :=
  {| textStream := ["final"; " answer"] |}.

(** The options of the streaming call of the final iteration when the
    budget is 2 and no predicate is configured. *)
Definition final_options : Call.t string :=
  engineOptions (test_settings 2 None)
    (outbound (test_settings 2 None) test_params (response_messages (draft 1)) 2)
    (Some O).

(** The events of the first pass of the scenario. *)
Definition first_pass : list (Event string) :=
  [EvAbortCheck false;
   EvGenerateText first_options (Fulfilled (draft 1));
   EvVerify first_context
     (Fulfilled {| complete := false; reason := Some "add tests" |})].

Definition verdict_done : VerifyCompletionResult :=
  {| complete := true; reason := Some "done" |}.

(** What [loop] returns in the small world when completion is reported in
    the second iteration. *)
Definition verified_result : Result.t :=
  {| Result.text := "draft 2";
     Result.iterations := 2;
     Result.completionReason := verified;
     Result.reason := Some "done";
     Result.result := draft 2;
     Result.allResults := [draft 1; draft 2] |}.

Definition verdict_more : VerifyCompletionResult :=
  {| complete := false; reason := Some "add tests" |}.

(** ** The order of events *)

Section Order.
Context {Value World : Type}.
Variable settings : Settings.t Value World.

(** The error of a rejected call. *)
Definition rejection (e : Event Value) : option Error :=
  match e with
  | EvIterationStart _ (Rejected x) => Some x
  | EvGenerateText _ (Rejected x) => Some x
  | EvIterationEnd _ _ _ (Rejected x) => Some x
  | EvVerify _ (Rejected x) => Some x
  | _ => None
  end.

(** The last event of a log. *)
Fixpoint previous (l : list (Event Value)) : option (Event Value) :=
  match l with
  | [] => None
  | [e] => Some e
  | _ :: l' => previous l'
  end.

(** The fixed order inside an iteration, [pre] being the log before [e]:
    [onIterationStart] comes right after the abort check; the engine call
    right after [onIterationStart], or after the abort check when that
    callback is not configured; [onIterationEnd] right after the engine call
    that completed, with its record and the number of the iteration; the
    predicate right after [onIterationEnd], or after the engine call when
    that callback is not configured, and it judges that call's record. *)
Definition Ordered (pre : list (Event Value)) (e : Event Value) : Prop :=
  match e with
  | EvIterationStart _ _ => previous pre = Some (EvAbortCheck false)
  | EvGenerateText _ _ =>
      match Settings.onIterationStart settings with
      | Some _ => exists i, previous pre = Some (EvIterationStart i (Fulfilled tt))
      | None => previous pre = Some (EvAbortCheck false)
      end
  | EvIterationEnd i _ r _ =>
      i = Z.of_nat (generate_calls pre)
      /\ exists options, previous pre = Some (EvGenerateText options (Fulfilled r))
  | EvVerify context _ =>
      match Settings.onIterationEnd settings with
      | Some _ =>
          exists i d, previous pre
                      = Some (EvIterationEnd i d (Verify.result context) (Fulfilled tt))
      | None =>
          exists options,
            previous pre
            = Some (EvGenerateText options (Fulfilled (Verify.result context)))
      end
  | _ => True
  end.

End Order.

(** The variables that a pass of [stream] hands on. *)
Definition stream_flow_vars (flow : StreamFlow) : StreamVars.t :=
  match flow with
  | StreamContinue vars => vars
  | StreamBreak vars => vars
  | StreamReturn _ vars => vars
  end.

(** ** More of the small world *)

(** The engine fails at its second call. *)
Definition failing_world : TestWorld :=
  {| calls_made := 0; time := 1000; abort_from := None; fail_at := Some 2%nat |}.

(** Signal 0 is aborted once two calls have been made. *)
Definition late_abort_world : TestWorld :=
  {| calls_made := 0; time := 1000; abort_from := Some 2%nat; fail_at := None |}.

(** A call without an abort signal. *)
Definition plain_params : RalphLoopAgentCallParameters :=
  {| prompt := "Summarize X"; abortSignal := None |}.

(** Settings with everything left out but the model, the given
    instructions, budget, callbacks and predicate. *)
Definition bare_settings (instructions : option Instructions)
    (stopWhen : option IterationStopCondition)
    (onStart : option (Z -> Async TestWorld unit))
    (onEnd : option (Z -> Z -> GenerateTextResult -> Async TestWorld unit))
    (verify : option (Verify.Context -> Async TestWorld VerifyCompletionResult))
  : Settings.t string TestWorld :=
  {| Settings.id := None;
     Settings.model := "test-model";
     Settings.instructions := instructions;
     Settings.tools := None;
     Settings.toolChoice := None;
     Settings.stopWhen := stopWhen;
     Settings.toolStopWhen := None;
     Settings.maxOutputTokens := None;
     Settings.temperature := None;
     Settings.topP := None;
     Settings.topK := None;
     Settings.presencePenalty := None;
     Settings.frequencyPenalty := None;
     Settings.stopSequences := None;
     Settings.seed := None;
     Settings.experimental_telemetry := None;
     Settings.activeTools := None;
     Settings.prepareStep := None;
     Settings.experimental_repairToolCall := None;
     Settings.providerOptions := None;
     Settings.experimental_context := None;
     Settings.onIterationStart := onStart;
     Settings.onIterationEnd := onEnd;
     Settings.verifyCompletion := verify |}.

(** Callbacks that do nothing. *)
Definition idle_start (i : Z) : Async TestWorld unit :=
  fun w => (Fulfilled tt, w).

Definition idle_end (i d : Z) (r : GenerateTextResult) : Async TestWorld unit :=
  fun w => (Fulfilled tt, w).

(** Budget 3 with both callbacks and a predicate that is done in the second
    iteration. *)
Definition watched : Settings.t string TestWorld :=
  bare_settings None (Some (iterationCountIs 3)) (Some idle_start) (Some idle_end)
                (Some (done_in 2)).

(** No stop condition at all. *)
Definition unbounded : Settings.t string TestWorld :=
  bare_settings None None None None None.

(** The second engine call of a run with budget 3 in the world where that
    call fails. *)
Definition rejected_call : Event string :=
  EvGenerateText
    (engineOptions (test_settings 3 None)
       (outbound (test_settings 3 None) test_params (response_messages (draft 1)) 2)
       (Some O))
    (Rejected (Raised "engine failure")).

(** What [loop] returns when the signal is set after two calls. *)
Definition aborted_result : Result.t :=
  {| Result.text := "draft 2";
     Result.iterations := 2;
     Result.completionReason := aborted;
     Result.reason := None;
     Result.result := draft 2;
     Result.allResults := [draft 1; draft 2] |}.

(** Engine calls that were rejected. *)
Fixpoint engine_failures {Value : Type} (l : list (Event Value)) : nat :=
  match l with
  | [] => O
  | EvGenerateText _ (Rejected _) :: l' => S (engine_failures l')
  | _ :: l' => engine_failures l'
  end.

(** An [onIterationStart] that rejects in the second iteration. *)
Definition balking_start (i : Z) : Async TestWorld unit :=
  fun w =>
    if i =? 2 then (Rejected (Raised "callback failure"), w) else (Fulfilled tt, w).

(** Budget 3, no predicate, and that callback. *)
Definition balking : Settings.t string TestWorld :=
  bare_settings None (Some (iterationCountIs 3)) (Some balking_start) None None.

(** * Facts about logs *)

Section LogFacts.
Context {Value : Type}.

Lemma each_event_nil (P : list (Event Value) -> Event Value -> Prop) :
  each_event P [].
Proof. intros [|x pre] y post H; discriminate. Qed.

Lemma each_event_cons (P : list (Event Value) -> Event Value -> Prop) a l :
  P [] a -> each_event (fun pre e => P (a :: pre) e) l -> each_event P (a :: l).
Proof.
  intros Ha Hl [|b pre] e post H; inversion H; subst; [exact Ha|].
  eapply Hl. reflexivity.
Qed.

Lemma each_event_app (P : list (Event Value) -> Event Value -> Prop) l1 l2 :
  each_event P l1 -> each_event (fun pre e => P (l1 ++ pre) e) l2 ->
  each_event P (l1 ++ l2).
Proof.
  revert P. induction l1 as [|a l1 IH]; intros P H1 H2; [exact H2|].
  cbn [app]. apply each_event_cons.
  - eapply (H1 []). reflexivity.
  - apply IH; [|exact H2].
    intros pre e post E. apply (H1 (a :: pre) e post). now rewrite E.
Qed.

Lemma each_event_weaken (P Q : list (Event Value) -> Event Value -> Prop) l :
  (forall pre e, P pre e -> Q pre e) -> each_event P l -> each_event Q l.
Proof. intros HPQ H pre e post E. eapply HPQ, H, E. Qed.

Lemma verifications_app (l1 l2 : list (Event Value)) :
  verifications (l1 ++ l2) = (verifications l1 + verifications l2)%nat.
Proof.
  induction l1 as [|e l1 IH]; simpl; [reflexivity|].
  destruct e; simpl; rewrite IH; reflexivity.
Qed.

Lemma completed_app (l1 l2 : list (Event Value)) :
  completed (l1 ++ l2) = completed l1 || completed l2.
Proof.
  induction l1 as [|e l1 IH]; simpl; [reflexivity|].
  destruct e as [| | | |c [v|x]|]; simpl; rewrite IH, ?orb_assoc; reflexivity.
Qed.

Lemma generate_calls_app (l1 l2 : list (Event Value)) :
  generate_calls (l1 ++ l2) = (generate_calls l1 + generate_calls l2)%nat.
Proof.
  induction l1 as [|e l1 IH]; simpl; [reflexivity|].
  destruct e; simpl; rewrite IH; reflexivity.
Qed.

Lemma stream_calls_app (l1 l2 : list (Event Value)) :
  stream_calls (l1 ++ l2) = (stream_calls l1 + stream_calls l2)%nat.
Proof.
  induction l1 as [|e l1 IH]; simpl; [reflexivity|].
  destruct e; simpl; rewrite IH; reflexivity.
Qed.

Lemma results_of_app (l1 l2 : list (Event Value)) :
  results_of (l1 ++ l2) = results_of l1 ++ results_of l2.
Proof.
  induction l1 as [|e l1 IH]; simpl; [reflexivity|].
  destruct e as [| |o [r|x]| | |]; simpl; rewrite IH; reflexivity.
Qed.

Lemma conversation_of_app (l1 l2 : list (Event Value)) :
  conversation_of (l1 ++ l2) = conversation_of l1 ++ conversation_of l2.
Proof.
  induction l1 as [|e l1 IH]; simpl; [reflexivity|].
  destruct e as [| |o [r|x]| |c [v|x]|]; simpl; rewrite IH, ?app_assoc; reflexivity.
Qed.

Lemma abort_seen_app (l1 l2 : list (Event Value)) :
  abort_seen (l1 ++ l2) = abort_seen l1 || abort_seen l2.
Proof.
  induction l1 as [|e l1 IH]; simpl; [reflexivity|].
  destruct e; simpl; rewrite IH, ?orb_assoc; reflexivity.
Qed.

Lemma failures_app (l1 l2 : list (Event Value)) :
  failures (l1 ++ l2) = (failures l1 + failures l2)%nat.
Proof.
  induction l1 as [|e l1 IH]; simpl; [reflexivity|].
  destruct e as [|i [u|x]|o [r|x]|i d r [u|x]|c [v|x]|]; simpl; rewrite IH; reflexivity.
Qed.

Lemma verifications_none_completed (l : list (Event Value)) :
  verifications l = O -> completed l = false.
Proof.
  induction l as [|e l IH]; [reflexivity|].
  destruct e; cbn; try exact IH. discriminate.
Qed.

Lemma conversation_of_idle (l : list (Event Value)) :
  generate_calls l = O -> verifications l = O -> conversation_of l = [].
Proof.
  induction l as [|e l IH]; [reflexivity|].
  destruct e; cbn; try exact IH; discriminate.
Qed.

End LogFacts.

(** * From the functions to the relations *)

Section RunFacts.
Context {Value World : Type}.
Variable env : Env Value World.
Variable settings : Settings.t Value World.
Variable task : string.
Variable signal : option AbortSignal.

Local Abbreviation start_log := (start_log settings).
Local Abbreviation end_log := (end_log settings).
Local Abbreviation pass_options := (pass_options settings task signal).
Local Abbreviation pass_log := (pass_log settings task signal).
Local Abbreviation pass_context := (pass_context task).
Local Abbreviation PassThrows := (PassThrows settings task signal).
Local Abbreviation Pass := (Pass settings task signal).
Local Abbreviation early_options := (early_options settings task signal).
Local Abbreviation early_log := (early_log settings task signal).
Local Abbreviation Passes := (Passes settings task signal).
Local Abbreviation closing_options := (closing_options settings task signal).
Local Abbreviation early_end_log := (early_end_log settings task signal).

(** Unfold the primitive operations of the monad. *)
Ltac unfold_ops :=
  unfold bind, ret, throw, readAborted, dateNow, callOnIterationStart,
    callOnIterationEnd, generateText, streamText, await, yield, emit in *;
  cbn [world log] in *.

(** Walk through the body in hypothesis [H]: split on the configured
    callbacks, on how each collaborator call settles and on the verdict. *)
Ltac walk H :=
  repeat first
    [ progress cbn beta iota zeta in H
    | progress cbn [world log] in H
    | match type of H with
      | context [match Settings.onIterationStart settings with _ => _ end] =>
          destruct (Settings.onIterationStart settings) eqn:?
      | context [match Settings.onIterationEnd settings with _ => _ end] =>
          destruct (Settings.onIterationEnd settings) eqn:?
      | context [match Settings.verifyCompletion settings with _ => _ end] =>
          destruct (Settings.verifyCompletion settings) eqn:?
      | context [env_streamText env ?o ?w] =>
          destruct (env_streamText env o w) as [? ?]
      | context [let (_, _) := ?c in _] =>
          destruct c as [[?|?] ?]
      | context [let (_, _) := ?c in _] =>
          destruct c as [? ?]
      | context [if complete ?v then _ else _] =>
          destruct (complete v) eqn:?
      end ].

(** Bring the log of the goal in the shape of a step and compare. *)
Ltac same_log :=
  unfold pass_log, start_log, end_log;
  repeat match goal with
         | E : Settings.onIterationStart settings = _ |- _ => rewrite E; clear E
         | E : Settings.onIterationEnd settings = _ |- _ => rewrite E; clear E
         end;
  cbn [app]; rewrite <- ?app_assoc; cbn [app]; reflexivity.

(** Name the events and the end of a pass with [step], then compare. *)
Ltac close_pass step :=
  eexists; eexists; split; [|split; [step|]];
  [ same_log
  | unfold loop_flow, after_pass, shared; cbn; rewrite ?app_nil_r; reflexivity ].

Lemma feedback_of_unverified (v : VerifyCompletionResult) (l : list ModelMessage) :
  complete v = false ->
  match reason v with
  | Some r => if negb (String.eqb r "") && negb false
              then l ++ [feedbackMessage r] else l
  | None => l
  end = l ++ feedback_of v.
Proof.
  intros Hc. unfold feedback_of. rewrite Hc.
  destruct (reason v) as [r|]; [|now rewrite app_nil_r].
  destruct (String.eqb r ""); simpl; [now rewrite app_nil_r | reflexivity].
Qed.

Lemma feedback_of_unverified_stream (v : VerifyCompletionResult) (l : list ModelMessage) :
  complete v = false ->
  match reason v with
  | Some r => if negb (String.eqb r "") then l ++ [feedbackMessage r] else l
  | None => l
  end = l ++ feedback_of v.
Proof.
  intros Hc. unfold feedback_of. rewrite Hc.
  destruct (reason v) as [r|]; [|now rewrite app_nil_r].
  destruct (String.eqb r ""); simpl; [now rewrite app_nil_r | reflexivity].
Qed.

(** Every pass of the body of [loop] is a [Pass]. *)
Lemma loop_body_pass (vars : LoopVars.t) (s s' : Sys Value World)
    (out : Outcome LoopFlow) :
  loop_body env settings task signal (buildSystemMessages settings) vars s = (out, s') ->
  exists d pe, log s' = log s ++ d /\ Pass (shared vars) d pe /\ out = loop_flow vars pe.
Proof.
  unfold loop_body. intros H. unfold_ops.
  destruct (match signal with
            | Some a => env_aborted env a (world s)
            | None => false
            end).
  { inversion H; subst; clear H.
    exists [EvAbortCheck true], PassAborted. repeat split. constructor. }
  walk H.
  all: try rewrite feedback_of_unverified in H by assumption.
  all: inversion H; subst; clear H; cbn [world log].
  all: repeat match goal with u : unit |- _ => destruct u end.
  all: first
    [ solve [close_pass ltac:(eapply PassVerify; [congruence|eassumption])]
    | solve [close_pass ltac:(eapply PassUnverified; [congruence|eassumption])]
    | solve [close_pass ltac:(eapply PassNoPredicate; assumption)]
    | solve [close_pass ltac:(eapply PassThrow, ThrowsStart; congruence)]
    | solve [close_pass ltac:(eapply PassThrow, ThrowsEngine)]
    | solve [close_pass ltac:(eapply PassThrow, ThrowsEnd; congruence)]
    | solve [close_pass ltac:(eapply PassThrow, ThrowsVerify; congruence)] ].
  Unshelve. all: exact 0.
Qed.

Ltac close_stream_pass step :=
  eexists; eexists; eexists; split; [|split; [step|]];
  [ unfold early_log, early_options, after_pass; cbn [StreamVars.currentMessages];
    rewrite ?app_nil_r; same_log
  | unfold stream_flow, after_pass; cbn; rewrite ?app_nil_r; reflexivity ].

(** Every pass of the body of [stream] is a [Pass], followed by the early
    streaming call when the predicate reported completion. *)
Lemma stream_body_pass (vars : StreamVars.t) (s s' : Sys Value World)
    (out : Outcome StreamFlow) :
  stream_body env settings task signal (buildSystemMessages settings) vars s = (out, s') ->
  exists d pe handle,
    log s' = log s ++ d ++ early_log pe handle /\ Pass vars d pe /\
    out = stream_flow vars pe handle.
Proof.
  unfold stream_body. intros H. unfold_ops.
  destruct (match signal with
            | Some a => env_aborted env a (world s)
            | None => false
            end).
  { inversion H; subst; clear H.
    exists [EvAbortCheck true], PassAborted, {| textStream := [] |}.
    repeat split. constructor. }
  walk H.
  all: try rewrite feedback_of_unverified_stream in H by assumption.
  all: inversion H; subst; clear H; cbn [world log].
  all: repeat match goal with u : unit |- _ => destruct u end.
  all: first
    [ solve [close_stream_pass ltac:(eapply PassVerify; [congruence|eassumption])]
    | solve [close_stream_pass ltac:(eapply PassUnverified; [congruence|eassumption])]
    | solve [close_stream_pass ltac:(eapply PassNoPredicate; assumption)]
    | solve [close_stream_pass ltac:(eapply PassThrow, ThrowsStart; congruence)]
    | solve [close_stream_pass ltac:(eapply PassThrow, ThrowsEngine)]
    | solve [close_stream_pass ltac:(eapply PassThrow, ThrowsEnd; congruence)]
    | solve [close_stream_pass ltac:(eapply PassThrow, ThrowsVerify; congruence)] ].
  Unshelve. all: try exact 0. all: try exact {| textStream := [] |}.
Qed.

Lemma Pass_continues_iteration vars d vars' :
  Pass vars d (PassContinues vars') ->
  StreamVars.iteration vars' = StreamVars.iteration vars + 1.
Proof. inversion 1; reflexivity. Qed.

(** With fuel for the passes that are left, [loop_while] follows [Passes];
    in particular it never stops for lack of fuel. *)
Lemma loop_while_passes (fuel : nat) (vars : LoopVars.t) (s s' : Sys Value World)
    (out : Outcome LoopVars.t) :
  maxIterations settings - LoopVars.iteration vars <= Z.of_nat fuel ->
  loop_while env settings fuel task signal (buildSystemMessages settings) vars s
    = (out, s') ->
  exists d re, log s' = log s ++ d /\
               Passes (maxIterations settings) (shared vars) d re /\
               out = loop_end vars re.
Proof.
  revert vars s. induction fuel as [|fuel IH]; intros vars s Hfuel H;
    cbn [loop_while] in H;
    destruct (LoopVars.iteration vars <? maxIterations settings) eqn:Hlt;
    [apply Z.ltb_lt in Hlt; lia | apply Z.ltb_ge in Hlt | apply Z.ltb_lt in Hlt
    | apply Z.ltb_ge in Hlt ].
  1, 3: inversion H; subst; exists [], (RunBudget (shared vars));
        rewrite app_nil_r; repeat split; [now constructor | now destruct vars].
  unfold bind in H.
  destruct (loop_body env settings task signal (buildSystemMessages settings) vars s)
    as [o s1] eqn:Hbody.
  apply loop_body_pass in Hbody. destruct Hbody as (d & pe & Hd & Hpass & ->).
  destruct pe as [|e|v sv|sv]; cbn [loop_flow] in H.
  - inversion H; subst. exists d, (RunAborted (shared vars)).
    repeat split; [assumption | now apply PassesAborted].
  - inversion H; subst. exists d, (RunThrew e).
    repeat split; [assumption | now apply PassesThrew].
  - inversion H; subst. exists d, (RunVerified v sv).
    repeat split; [assumption | now apply PassesVerified].
  - apply IH in H.
    2:{ apply Pass_continues_iteration in Hpass. cbn in *. lia. }
    destruct H as (d' & re & Hd' & Hrun & ->). cbn [log] in Hd'.
    exists (d ++ d'), re. repeat split.
    + rewrite Hd', Hd, app_assoc. reflexivity.
    + eapply PassesContinue; [exact Hlt | exact Hpass |].
      destruct sv; exact Hrun.
Qed.

Lemma stream_while_passes (fuel : nat) (vars : StreamVars.t) (s s' : Sys Value World)
    (out : Outcome StreamFlow) :
  maxIterations settings - 1 - StreamVars.iteration vars <= Z.of_nat fuel ->
  stream_while env settings fuel task signal (buildSystemMessages settings) vars s
    = (out, s') ->
  exists d re handle,
    log s' = log s ++ d ++ early_end_log re handle /\
    Passes (maxIterations settings - 1) vars d re /\
    out = stream_end re handle.
Proof.
  revert vars s. induction fuel as [|fuel IH]; intros vars s Hfuel H;
    cbn [stream_while] in H;
    destruct (StreamVars.iteration vars <? maxIterations settings - 1) eqn:Hlt;
    [apply Z.ltb_lt in Hlt; lia | apply Z.ltb_ge in Hlt | apply Z.ltb_lt in Hlt
    | apply Z.ltb_ge in Hlt ].
  1, 3: inversion H; subst; exists [], (RunBudget vars), {| textStream := [] |};
        rewrite app_nil_r; repeat split; now constructor.
  unfold bind in H.
  destruct (stream_body env settings task signal (buildSystemMessages settings) vars s)
    as [o s1] eqn:Hbody.
  apply stream_body_pass in Hbody. destruct Hbody as (d & pe & h & Hd & Hpass & ->).
  destruct pe as [|e|v sv|sv]; cbn [stream_flow early_log] in H, Hd.
  - inversion H; subst. exists d, (RunAborted vars), h.
    repeat split; [assumption | now apply PassesAborted].
  - inversion H; subst. exists d, (RunThrew e), h.
    repeat split; [assumption | now apply PassesThrew].
  - inversion H; subst. exists d, (RunVerified v sv), h.
    repeat split; [assumption | now apply PassesVerified].
  - apply IH in H.
    2:{ apply Pass_continues_iteration in Hpass. lia. }
    destruct H as (d' & re & h' & Hd' & Hrun & ->).
    exists (d ++ d'), re, h'. repeat split.
    + rewrite Hd', Hd, app_nil_r, <- !app_assoc. reflexivity.
    + eapply PassesContinue; eassumption.
Qed.

(** A run of [loop] is a sequence of passes followed by [finalize]. *)
Lemma loop_passes (w : World) (out : Outcome Result.t) (s' : Sys Value World) :
  loop env settings {| prompt := task; abortSignal := signal |} (start w) = (out, s') ->
  exists re, Passes (maxIterations settings) vars0 (log s') re /\ out = loop_result re.
Proof.
  unfold loop, bind. cbn [prompt abortSignal]. intros H.
  match type of H with context [loop_while ?e ?st ?f ?p ?sg ?sm ?v ?s0] =>
    destruct (loop_while e st f p sg sm v s0) as [o s1] eqn:Hw end.
  apply loop_while_passes in Hw; [|cbn; lia].
  destruct Hw as (d & re & Hd & Hrun & ->). cbn [log start app] in Hd.
  exists re. destruct re as [sv|sv|v sv|e]; cbn [loop_end] in H;
    unfold loop_result, finalize; cbn [LoopVars.allResults] in H.
  1-3: destruct (array_at (StreamVars.allResults sv)
                  (Z.of_nat (List.length (StreamVars.allResults sv)) - 1));
       inversion H; subst; (split; [exact Hrun | reflexivity]).
  inversion H; subst; (split; [exact Hrun | reflexivity]).
Qed.

(** A run of [stream] is a sequence of passes followed by one streaming
    call; [stream] itself throws only if a pass throws. *)
Lemma stream_passes (w : World) (out : Outcome (StreamTextResult * StreamVars.t))
    (s' : Sys Value World) :
  stream_frame env settings {| prompt := task; abortSignal := signal |} (start w)
    = (out, s') ->
  exists d re, Passes (maxIterations settings - 1) vars0 d re /\
    match closing_options re, closing_vars re with
    | Some options, Some sv =>
        exists handle,
          log s' = d ++ [EvStreamText options handle] /\ out = Returned (handle, sv)
    | _, _ => log s' = d /\ exists e, re = RunThrew e /\ out = Threw e
    end.
Proof.
  unfold stream_frame, bind. cbn [prompt abortSignal]. intros H.
  match type of H with context [stream_while ?e ?st ?f ?p ?sg ?sm ?v ?s0] =>
    destruct (stream_while e st f p sg sm v s0) as [o s1] eqn:Hw end.
  apply stream_while_passes in Hw; [|cbn; lia].
  destruct Hw as (d & re & h & Hd & Hrun & ->). cbn [log start app] in Hd.
  exists d, re.
  split; [exact Hrun|].
  destruct re as [sv|sv|v sv|e];
    cbn [stream_end closing_options closing_vars early_end_log] in *.
  1, 2: unfold streamText, ret in H;
        destruct (env_streamText env _ (world s1)) as [h' w'] eqn:Hs;
        inversion H; subst; cbn [log emit];
        eexists; split; unfold emit; cbn [log];
        rewrite ?Hd, ?app_nil_r; reflexivity.
  - unfold ret in H. inversion H; subst.
    exists h. split; [exact Hd | reflexivity].
  - inversion H; subst. rewrite app_nil_r in Hd. split; [exact Hd|].
    exists e. split; reflexivity.
Qed.

Local Abbreviation tallied := (tallied (Value:=Value)).
Local Abbreviation balanced := (balanced settings).
Local Abbreviation accounted := (accounted settings).
Local Abbreviation Built := (Built settings task signal).
Local Abbreviation Closed := (Closed settings task signal).

(** Compute what a concrete piece of log adds to the counts. *)
Ltac tally :=
  unfold pass_log, start_log, end_log;
  rewrite ?generate_calls_app, ?results_of_app, ?conversation_of_app,
    ?verifications_app, ?completed_app, ?stream_calls_app;
  cbn [generate_calls results_of conversation_of verifications completed stream_calls app].

Lemma pass_log_counts c i d r :
  generate_calls (pass_log c i d r) = 1%nat
  /\ results_of (pass_log c i d r) = [r]
  /\ conversation_of (pass_log c i d r) = response_messages r
  /\ verifications (pass_log c i d r) = O
  /\ completed (pass_log c i d r) = false
  /\ stream_calls (pass_log c i d r) = O.
Proof.
  unfold pass_log, start_log, end_log.
  destruct (Settings.onIterationStart settings), (Settings.onIterationEnd settings);
    cbn; rewrite ?app_nil_r; repeat split; reflexivity.
Qed.

Lemma PassThrows_counts c rs i d e :
  PassThrows c rs i d e ->
  completed d = false /\ stream_calls d = O /\ (generate_calls d <= 1)%nat.
Proof.
  destruct 1; unfold pass_log, start_log, end_log;
    destruct (Settings.onIterationStart settings), (Settings.onIterationEnd settings);
    cbn; repeat split; try lia; congruence.
Qed.

(** A pass keeps the variables in step with the log. *)
Lemma Pass_accounted vars d pe l :
  Pass vars d pe -> accounted vars l ->
  match pe with
  | PassAborted => accounted vars (l ++ d)
  | PassThrew e => completed (l ++ d) = false /\ stream_calls (l ++ d) = O
  | PassVerified v vars' =>
      tallied vars' (l ++ d) /\ balanced (l ++ d) /\ completed (l ++ d) = true
      /\ exists pre context,
           d = pre ++ [EvVerify context (Fulfilled v)]
           /\ completed pre = false
           /\ Verify.iteration context = StreamVars.iteration vars'
  | PassContinues vars' => accounted vars' (l ++ d)
  end.
Proof.
  intros Hp (Ht & Hb & Hc). destruct Ht as [H1 H2 H3 H4 H5].
  destruct Hp as [|d e Hthrow|r d v Hv Hcv|r d v Hv Hcv|r d Hv].
  - split; [|split].
    + constructor; tally; rewrite ?app_nil_r, ?Nat.add_0_r; assumption.
    + intros Hn. tally. rewrite !Nat.add_0_r. auto.
    + tally. now rewrite Hc.
  - apply PassThrows_counts in Hthrow. destruct Hthrow as (Hc' & Hs' & _).
    rewrite completed_app, stream_calls_app, Hc, Hc', H5, Hs'. split; reflexivity.
  - destruct (pass_log_counts (StreamVars.currentMessages vars)
                (StreamVars.iteration vars + 1) d r) as (G & R & C & V & K & S).
    rewrite !app_assoc.
    split; [|split; [|split]].
    + constructor; unfold after_pass; cbn [StreamVars.allResults
        StreamVars.currentMessages StreamVars.iteration];
      rewrite <- ?app_assoc;
      rewrite ?generate_calls_app, ?results_of_app, ?conversation_of_app,
        ?stream_calls_app, ?G, ?R, ?C, ?S; cbn; unfold feedback_of; rewrite ?Hcv;
      rewrite ?app_nil_r, ?Nat.add_0_r, ?length_app, <- ?app_assoc; cbn;
      first [congruence | lia].
    + intros _. rewrite <- ?app_assoc, !verifications_app, !generate_calls_app, G, V.
      cbn. specialize (Hb Hv). lia.
    + rewrite <- ?app_assoc, !completed_app, K, Hc. cbn. now rewrite Hcv.
    + eexists; eexists; split; [reflexivity|]. split; [exact K|]. reflexivity.
  - destruct (pass_log_counts (StreamVars.currentMessages vars)
                (StreamVars.iteration vars + 1) d r) as (G & R & C & V & K & S).
    split; [|split].
    + constructor; unfold after_pass; cbn [StreamVars.allResults
        StreamVars.currentMessages StreamVars.iteration];
      rewrite ?generate_calls_app, ?results_of_app, ?conversation_of_app,
        ?stream_calls_app, ?G, ?R, ?C, ?S; cbn;
      rewrite ?app_nil_r, ?Nat.add_0_r, ?length_app, <- ?app_assoc; cbn;
      first [congruence | lia].
    + intros _. rewrite !verifications_app, !generate_calls_app, G, V.
      cbn. specialize (Hb Hv). lia.
    + rewrite !completed_app, K, Hc. cbn. now rewrite Hcv.
  - destruct (pass_log_counts (StreamVars.currentMessages vars)
                (StreamVars.iteration vars + 1) d r) as (G & R & C & V & K & S).
    split; [|split].
    + constructor; unfold after_pass; cbn [StreamVars.allResults
        StreamVars.currentMessages StreamVars.iteration];
      rewrite ?generate_calls_app, ?results_of_app, ?conversation_of_app,
        ?stream_calls_app, ?G, ?R, ?C, ?S; cbn;
      rewrite ?app_nil_r, ?Nat.add_0_r, ?length_app, <- ?app_assoc; cbn;
      first [congruence | lia].
    + intros Hn. contradiction.
    + rewrite !completed_app, K, Hc. reflexivity.
Qed.

(** Take a concrete piece of log apart, event by event. *)
Ltac each_one :=
  cbn [app]; repeat (apply each_event_cons; [|]);
  try apply each_event_nil.

(** Every event of a pass is [Built]. *)
Lemma Pass_built vars d pe l :
  Pass vars d pe -> accounted vars l ->
  each_event (fun pre e => Built (l ++ pre) e) d.
Proof.
  intros Hp (Ht & Hb & Hc). destruct Ht as [H1 H2 H3 H4 H5].
  assert (Hgen : forall pre, generate_calls pre = O -> verifications pre = O ->
                             completed pre = false -> conversation_of pre = [] ->
            forall o, Built (l ++ pre)
              (EvGenerateText (pass_options (StreamVars.currentMessages vars)
                                            (StreamVars.iteration vars + 1)) o)).
  { intros pre G V K C o. cbn. rewrite conversation_of_app, generate_calls_app, G, C.
    rewrite app_nil_r, Nat.add_0_r, <- H2, <- H3. split; [reflexivity|]. split.
    - intros Hn. rewrite verifications_app, generate_calls_app, G, V. auto.
    - now rewrite completed_app, Hc, K. }
  assert (Hst : forall pre, generate_calls pre = O ->
            forall o, Built (l ++ pre)
                        (EvIterationStart (StreamVars.iteration vars + 1) o)).
  { intros pre G o. cbn. rewrite generate_calls_app, G, Nat.add_0_r, H3. reflexivity. }
  assert (Hver : forall pre r, generate_calls pre = 1%nat -> verifications pre = O ->
                             completed pre = false ->
                             conversation_of pre = response_messages r ->
                             results_of pre = [r] ->
                             Settings.verifyCompletion settings <> None ->
            forall o, Built (l ++ pre)
              (EvVerify (pass_context (StreamVars.allResults vars)
                                      (StreamVars.iteration vars + 1) r) o)).
  { intros pre r G V K C R Hn o. cbn.
    rewrite completed_app, verifications_app, generate_calls_app, results_of_app,
      conversation_of_app, length_app, G, V, K, C, R, Hc.
    repeat split; try assumption; try reflexivity.
    - specialize (Hb Hn). lia.
    - cbn. lia.
    - exists (results_of l), (conversation_of l). repeat split.
      unfold pass_context. cbn. rewrite H1, H3. f_equal. lia. }
  destruct Hp as [|d e Hthrow|r d v Hv Hcv|r d v Hv Hcv|r d Hv];
    [ | destruct Hthrow | | | ];
    unfold pass_log, start_log, end_log;
    destruct (Settings.onIterationStart settings), (Settings.onIterationEnd settings);
    each_one;
    first [ exact I
          | apply Hst; reflexivity
          | apply Hgen; reflexivity
          | eapply Hver; cbn; rewrite ?app_nil_r; solve [reflexivity | assumption]
          | contradiction
          | contradiction ].
Qed.

(** Every event of a run is [Built]. *)
Lemma Passes_built limit vars d re l :
  Passes limit vars d re -> accounted vars l ->
  each_event (fun pre e => Built (l ++ pre) e) d.
Proof.
  intros Hr. revert l.
  induction Hr as [vars Hle|vars d Hlt Hp|vars d e Hlt Hp|vars d v vars' Hlt Hp
                  |vars d vars' d' re Hlt Hp Hr IH]; intros l Hacc.
  - apply each_event_nil.
  - eapply Pass_built; eassumption.
  - eapply Pass_built; eassumption.
  - eapply Pass_built; eassumption.
  - apply each_event_app; [eapply Pass_built; eassumption|].
    pose proof (Pass_accounted Hp Hacc) as Hacc'. cbn in Hacc'.
    eapply each_event_weaken; [|apply (IH _ Hacc')].
    intros pre e. cbn beta. now rewrite app_assoc.
Qed.

(** How a run leaves the variables and the log. *)
Lemma Passes_accounted limit vars d re l :
  Passes limit vars d re -> accounted vars l ->
  match re with
  | RunBudget sv =>
      accounted sv (l ++ d)
      /\ StreamVars.iteration sv = Z.max limit (StreamVars.iteration vars)
  | RunAborted sv =>
      accounted sv (l ++ d)
      /\ StreamVars.iteration vars <= StreamVars.iteration sv < limit
      /\ exists pre, d = pre ++ [EvAbortCheck true]
  | RunVerified v sv =>
      tallied sv (l ++ d) /\ balanced (l ++ d) /\ completed (l ++ d) = true
      /\ StreamVars.iteration vars < StreamVars.iteration sv <= limit
      /\ exists pre context,
           d = pre ++ [EvVerify context (Fulfilled v)]
           /\ completed pre = false
           /\ Verify.iteration context = StreamVars.iteration sv
  | RunThrew e => completed (l ++ d) = false /\ stream_calls (l ++ d) = O
  end.
Proof.
  intros Hr. revert l.
  induction Hr as [vars Hle|vars d Hlt Hp|vars d e Hlt Hp|vars d v vars' Hlt Hp
                  |vars d vars' d' re Hlt Hp Hr IH]; intros l Hacc.
  - rewrite app_nil_r. split; [assumption | lia].
  - pose proof (Pass_accounted Hp Hacc) as H. cbn in H.
    split; [assumption|]. split; [lia|].
    inversion Hp; subst. now exists [].
  - exact (Pass_accounted Hp Hacc).
  - pose proof (Pass_accounted Hp Hacc) as (Ht & Hb & Hc & pre & c & Hd & Hpre & Hi).
    split; [exact Ht|]. split; [exact Hb|]. split; [exact Hc|].
    split; [inversion Hp; subst; cbn; lia|].
    exists pre, c. split; [exact Hd|]. split; assumption.
  - pose proof (Pass_accounted Hp Hacc) as Hacc'. cbn in Hacc'.
    pose proof (Pass_continues_iteration Hp) as Hi.
    specialize (IH _ Hacc'). rewrite <- app_assoc in IH.
    assert (Hcd : completed d = false).
    { destruct Hacc' as (_ & _ & Hc). rewrite completed_app in Hc.
      now apply orb_false_elim in Hc. }
    destruct re as [sv|sv|v sv|e].
    + destruct IH as (Ha & Hm). split; [assumption | lia].
    + destruct IH as (Ha & Hm & pre & ->). split; [assumption|]. split; [lia|].
      exists (d ++ pre). now rewrite app_assoc.
    + destruct IH as (Ht & Hb & Hc & Hm & pre & c & -> & Hpre & Hi').
      split; [exact Ht|]. split; [exact Hb|]. split; [exact Hc|].
      split; [lia|].
      exists (d ++ pre), c. rewrite app_assoc, completed_app, Hcd, Hpre.
      split; [reflexivity|]. split; [reflexivity | assumption].
    + exact IH.
Qed.

Lemma accounted_start : accounted vars0 [].
Proof.
  split; [|split].
  - constructor; reflexivity.
  - intros _. reflexivity.
  - reflexivity.
Qed.

Lemma array_at_last {A} (init : list A) (x : A) :
  array_at (init ++ [x]) (Z.of_nat (List.length (init ++ [x])) - 1) = Some x.
Proof.
  unfold array_at. rewrite length_app. cbn [List.length].
  destruct (Z.of_nat (List.length init + 1) - 1 <? 0) eqn:E.
  - apply Z.ltb_lt in E. lia.
  - replace (Z.to_nat (Z.of_nat (List.length init + 1) - 1)) with (List.length init) by lia.
    rewrite nth_error_app2, Nat.sub_diag by lia. reflexivity.
Qed.

(** [finalize] on a run that made no record throws. *)
Lemma finalize_empty sv why because :
  StreamVars.allResults sv = [] ->
  finalize sv why because
  = Threw (TypeError "Cannot read properties of undefined (reading 'text')").
Proof. unfold finalize. intros ->. reflexivity. Qed.

(** [finalize] otherwise reports the last record. *)
Lemma finalize_last sv why because init x :
  StreamVars.allResults sv = init ++ [x] ->
  finalize sv why because
  = Returned {| Result.text := text x;
                Result.iterations := StreamVars.iteration sv;
                Result.completionReason := why;
                Result.reason := because;
                Result.result := x;
                Result.allResults := StreamVars.allResults sv |}.
Proof. unfold finalize. intros E. rewrite E at 1 2. now rewrite array_at_last. Qed.

Lemma finalize_cases sv why because :
  (StreamVars.allResults sv = []
   /\ finalize sv why because
      = Threw (TypeError "Cannot read properties of undefined (reading 'text')"))
  \/ (exists init x,
        StreamVars.allResults sv = init ++ [x]
        /\ finalize sv why because
           = Returned {| Result.text := text x;
                         Result.iterations := StreamVars.iteration sv;
                         Result.completionReason := why;
                         Result.reason := because;
                         Result.result := x;
                         Result.allResults := StreamVars.allResults sv |}).
Proof.
  assert (H : StreamVars.allResults sv = []
              \/ exists init x, StreamVars.allResults sv = init ++ [x]).
  { destruct (StreamVars.allResults sv) as [|a l]; [now left | right].
    destruct (@exists_last _ (a :: l)) as (init & x & Hx); [discriminate|].
    now exists init, x. }
  destruct H as [H | (init & x & H)].
  - left. split; [exact H | now apply finalize_empty].
  - right. exists init, x. split; [exact H | now apply finalize_last with init].
Qed.

Lemma PassThrows_disturbed c rs i d e :
  PassThrows c rs i d e -> forallb undisturbed d = false.
Proof.
  destruct 1; unfold pass_log, start_log, end_log;
    destruct (Settings.onIterationStart settings), (Settings.onIterationEnd settings);
    reflexivity.
Qed.

(** Without a predicate a run never ends verified, and if nothing disturbs
    it, it ends because the budget is spent. *)
Lemma Passes_no_predicate limit vars d re :
  Settings.verifyCompletion settings = None ->
  Passes limit vars d re ->
  (forall v sv, re <> RunVerified v sv)
  /\ (forallb undisturbed d = true -> exists sv, re = RunBudget sv).
Proof.
  intros Hn Hr.
  induction Hr as [vars Hle|vars d Hlt Hp|vars d e Hlt Hp|vars d v vars' Hlt Hp
                  |vars d vars' d' re Hlt Hp Hr IH].
  - split; [discriminate | eauto].
  - split; [discriminate|]. inversion Hp; subst. discriminate.
  - split; [discriminate|]. inversion Hp as [|? ? Ht| | |]; subst.
    apply PassThrows_disturbed in Ht. congruence.
  - inversion Hp; subst. contradiction.
  - destruct IH as (IH1 & IH2). split; [exact IH1|].
    rewrite forallb_app. intros H. apply andb_prop in H. now apply IH2.
Qed.

Lemma in_completed (l : list (Event Value)) context v :
  In (EvVerify context (Fulfilled v)) l -> complete v = true -> completed l = true.
Proof.
  intros Hin Hc. apply in_split in Hin. destruct Hin as (l1 & l2 & ->).
  rewrite completed_app. cbn. rewrite Hc. cbn. apply orb_true_r.
Qed.

(** What a pass adds to the records. *)
Lemma Pass_results vars d pe :
  Pass vars d pe ->
  match pe with
  | PassAborted => results_of d = [] /\ generate_calls d = O
  | PassThrew e => True
  | PassVerified _ vars' | PassContinues vars' =>
      StreamVars.allResults vars' = StreamVars.allResults vars ++ results_of d
      /\ generate_calls d = 1%nat /\ List.length (results_of d) = 1%nat
  end.
Proof.
  destruct 1 as [|d e Hthrow|r d v Hv Hcv|r d v Hv Hcv|r d Hv];
    try exact I; try (split; reflexivity);
    destruct (pass_log_counts (StreamVars.currentMessages vars)
                (StreamVars.iteration vars + 1) d r) as (G & R & C & V & K & S);
    rewrite ?results_of_app, ?generate_calls_app, G, R; cbn; repeat split.
Qed.

(** What a pass shows of aborts and failures, and how many calls it makes. *)
Lemma Pass_signs vars d pe :
  Pass vars d pe ->
  abort_seen d = match pe with PassAborted => true | _ => false end
  /\ failures d = match pe with PassThrew _ => 1%nat | _ => O end
  /\ (generate_calls d <= 1)%nat.
Proof.
  destruct 1 as [|d e Hthrow|r d v Hv Hcv|r d v Hv Hcv|r d Hv];
    [ | destruct Hthrow | | | ];
    unfold pass_log, start_log, end_log;
    destruct (Settings.onIterationStart settings), (Settings.onIterationEnd settings);
    cbn; repeat split; try lia; contradiction.
Qed.

Lemma Passes_signs limit vars d re :
  Passes limit vars d re ->
  abort_seen d = match re with RunAborted _ => true | _ => false end
  /\ failures d = match re with RunThrew _ => 1%nat | _ => O end
  /\ Z.of_nat (generate_calls d) <= Z.max 0 (limit - StreamVars.iteration vars).
Proof.
  induction 1 as [vars Hle|vars d Hlt Hp|vars d e Hlt Hp|vars d v vars' Hlt Hp
                 |vars d vars' d' re Hlt Hp Hr IH].
  - cbn. repeat split. lia.
  - destruct (Pass_signs Hp) as (A & F & G). repeat split; try assumption. lia.
  - destruct (Pass_signs Hp) as (A & F & G). repeat split; try assumption. lia.
  - destruct (Pass_signs Hp) as (A & F & G). repeat split; try assumption. lia.
  - destruct (Pass_signs Hp) as (A & F & G). destruct IH as (A' & F' & G').
    pose proof (Pass_continues_iteration Hp) as Hi.
    rewrite abort_seen_app, failures_app, generate_calls_app, A, F, A', F'.
    repeat split. lia.
Qed.

(** The streaming call that ends a run of [stream] is [Closed], like the
    events before it. *)
Lemma Passes_closed limit vars0' d re options handle :
  Passes limit vars0' d re -> accounted vars0' [] ->
  closing_options re = Some options ->
  each_event Closed (d ++ [EvStreamText options handle]).
Proof.
  intros Hr Hacc Hopt.
  pose proof (Passes_built Hr Hacc) as Hb.
  pose proof (Passes_accounted Hr Hacc) as Ha. cbn [app] in Ha.
  apply each_event_app.
  - assert (Hs : stream_calls d = O).
    { destruct re as [sv|sv|v sv|e].
      - now destruct Ha as (([H1 H2 H3 H4 H5] & _) & _).
      - now destruct Ha as (([H1 H2 H3 H4 H5] & _) & _).
      - now destruct Ha as ([H1 H2 H3 H4 H5] & _).
      - now destruct Ha as (_ & H5). }
    intros pre e post E. specialize (Hb pre e post E). cbn [app] in Hb.
    destruct e; try exact Hb.
    rewrite E, stream_calls_app in Hs. cbn in Hs. lia.
  - apply each_event_cons; [|apply each_event_nil].
    rewrite app_nil_r. cbn [Closed].
    destruct re as [sv|sv|v sv|e]; cbn [closing_options] in Hopt;
      inversion Hopt; subst; clear Hopt.
    + destruct Ha as (([H1 H2 H3 H4 H5] & Hb' & Hc) & _).
      cbn. rewrite Hc, H2, H3. repeat split; assumption.
    + destruct Ha as (([H1 H2 H3 H4 H5] & Hb' & Hc) & _).
      cbn. rewrite Hc, H2, H3. repeat split; assumption.
    + destruct Ha as ([H1 H2 H3 H4 H5] & Hb' & Hc & _).
      cbn. rewrite Hc, H2. repeat split; assumption.
Qed.

(** The blocking call of a pass is made with the options of its iteration,
    built from [currentMessages] as the pass found it. *)
Lemma Pass_call vars d pe options out :
  Pass vars d pe ->
  In (EvGenerateText options out) d ->
  options = pass_options (StreamVars.currentMessages vars) (StreamVars.iteration vars + 1).
Proof.
  intros Hp Hin.
  destruct Hp as [|d e Hthrow|r d v0 Hv Hcv|r d v0 Hv Hcv|r d Hv];
    [ | destruct Hthrow | | | ];
    unfold pass_log, start_log, end_log in Hin;
    destruct (Settings.onIterationStart settings), (Settings.onIterationEnd settings);
    cbn in Hin;
    repeat match goal with
           | H : _ \/ _ |- _ => destruct H
           | H : False |- _ => destruct H
           | H : _ = EvGenerateText _ _ |- _ => inversion H; clear H
           end;
    reflexivity.
Qed.

Lemma in_verifications (l : list (Event Value)) context out :
  In (EvVerify context out) l -> verifications l <> O.
Proof.
  intros Hin. apply in_split in Hin. destruct Hin as (l1 & l2 & ->).
  rewrite verifications_app. cbn. lia.
Qed.

(** A pass in which the predicate settles without reporting completion
    continues with the response messages and the feedback appended. *)
Lemma Pass_feedback vars d pe context v :
  Pass vars d pe ->
  In (EvVerify context (Fulfilled v)) d ->
  complete v = false ->
  pe = PassContinues (after_pass vars (Verify.result context) (feedback_of v)).
Proof.
  intros Hp Hin Hc.
  destruct Hp as [|d e Hthrow|r d v0 Hv Hcv|r d v0 Hv Hcv|r d Hv].
  - destruct Hin as [H|[]]. discriminate.
  - exfalso. destruct Hthrow; unfold pass_log, start_log, end_log in Hin;
      destruct (Settings.onIterationStart settings), (Settings.onIterationEnd settings);
      cbn in Hin; intuition discriminate.
  - apply in_app_or in Hin. destruct Hin as [Hin|[Hin|[]]].
    + apply in_verifications in Hin.
      now destruct (pass_log_counts (StreamVars.currentMessages vars)
                      (StreamVars.iteration vars + 1) d r) as (_ & _ & _ & V & _).
    + inversion Hin; subst. congruence.
  - apply in_app_or in Hin. destruct Hin as [Hin|[Hin|[]]].
    + apply in_verifications in Hin.
      now destruct (pass_log_counts (StreamVars.currentMessages vars)
                      (StreamVars.iteration vars + 1) d r) as (_ & _ & _ & V & _).
    + inversion Hin; subst. reflexivity.
  - apply in_verifications in Hin.
    now destruct (pass_log_counts (StreamVars.currentMessages vars)
                    (StreamVars.iteration vars + 1) d r) as (_ & _ & _ & V & _).
Qed.

Lemma feedback_of_reason v r :
  complete v = false -> reason v = Some r -> r <> "" ->
  feedback_of v = [feedbackMessage r].
Proof.
  intros Hc Hr Hne. unfold feedback_of. rewrite Hc, Hr.
  destruct (String.eqb r "") eqn:E; [apply String.eqb_eq in E; contradiction|].
  reflexivity.
Qed.

End RunFacts.

(** * Runs of [loop] and [stream] *)

Section Run.
Context {Value World : Type}.
Variable env : Env Value World.
Variable settings : Settings.t Value World.
Variable params : RalphLoopAgentCallParameters.
Variable w : World.

(** A run of [loop]: passes up to the budget, then [finalize]. *)
Lemma loop_run :
  exists re,
    Passes settings (prompt params) (abortSignal params) (maxIterations settings)
           vars0 (loop_log env settings params w) re
    /\ loop_outcome env settings params w = loop_result re.
Proof.
  unfold loop_log, loop_outcome. destruct params as [p a].
  destruct (loop env settings {| prompt := p; abortSignal := a |} (start w))
    as [out s'] eqn:E.
  apply loop_passes in E. exact E.
Qed.

(** A run of [stream]: passes up to the budget less one, then one streaming
    call, unless a pass threw. *)
Lemma stream_run :
  exists d re,
    Passes settings (prompt params) (abortSignal params) (maxIterations settings - 1)
           vars0 d re
    /\ match closing_options settings (prompt params) (abortSignal params) re,
             closing_vars re with
       | Some options, Some sv =>
           exists handle,
             stream_log env settings params w = d ++ [EvStreamText options handle]
             /\ stream_outcome env settings params w = Returned handle
             /\ stream_vars env settings params w = Some sv
       | _, _ =>
           stream_log env settings params w = d
           /\ exists e, re = RunThrew e
                        /\ stream_outcome env settings params w = Threw e
                        /\ stream_vars env settings params w = None
       end.
Proof.
  unfold stream_log, stream_outcome, stream_vars, stream, bind, ret.
  destruct params as [p a].
  destruct (stream_frame env settings {| prompt := p; abortSignal := a |} (start w))
    as [out s'] eqn:E.
  apply stream_passes in E. destruct E as (d & re & Hr & H).
  exists d, re. split; [exact Hr|]. cbn [prompt abortSignal fst snd] in *.
  destruct (closing_options settings p a re) as [options|];
    destruct (closing_vars re) as [sv|].
  - destruct H as (h & Hl & ->). exists h. cbn. repeat split. exact Hl.
  - destruct H as (Hl & e & -> & ->). cbn. split; [exact Hl|]. now exists e.
  - destruct H as (Hl & e & -> & ->). cbn. split; [exact Hl|]. now exists e.
  - destruct H as (Hl & e & -> & ->). cbn. split; [exact Hl|]. now exists e.
Qed.

(** Neither method ever stops for lack of fuel. *)
Lemma loop_never_out_of_fuel :
  loop_outcome env settings params w <> FuelExhausted.
Proof.
  destruct loop_run as (re & _ & ->).
  destruct re as [sv|sv|v sv|e]; cbn [loop_result]; try discriminate;
    match goal with
    | |- finalize ?sv ?why ?because <> _ =>
        destruct (finalize_cases sv why because) as [(_ & ->)|(i & x & _ & ->)];
        discriminate
    end.
Qed.

Lemma stream_never_out_of_fuel :
  stream_outcome env settings params w <> FuelExhausted.
Proof.
  destruct stream_run as (d & re & _ & H).
  destruct re as [sv|sv|v sv|e]; cbn [closing_options closing_vars] in H.
  1-3: destruct H as (h & _ & -> & _); discriminate.
  destruct H as (_ & e' & _ & -> & _). discriminate.
Qed.

(** Every event of a run of [loop] is [Built]. *)
Lemma loop_built :
  each_event (Built settings (prompt params) (abortSignal params))
             (loop_log env settings params w).
Proof.
  destruct loop_run as (re & Hr & _).
  exact (Passes_built Hr (accounted_start settings)).
Qed.

(** Every event of a run of [stream] is [Closed]. *)
Lemma stream_closed :
  each_event (Closed settings (prompt params) (abortSignal params))
             (stream_log env settings params w).
Proof.
  destruct stream_run as (d & re & Hr & H).
  destruct (closing_options settings (prompt params) (abortSignal params) re)
    as [options|] eqn:Ho; destruct (closing_vars re) as [sv|] eqn:Hv.
  - destruct H as (h & -> & _).
    eapply Passes_closed; [exact Hr | apply accounted_start | exact Ho].
  - destruct re; discriminate.
  - destruct re; discriminate.
  - destruct H as (-> & _).
    pose proof (Passes_built Hr (accounted_start settings)) as Hb.
    pose proof (Passes_accounted Hr (accounted_start settings)) as Ha.
    intros pre e post E. specialize (Hb pre e post E). cbn [app] in *.
    destruct e; try exact Hb.
    destruct re as [sv|sv|v sv|x]; try discriminate.
    destruct Ha as (_ & H5). rewrite E, stream_calls_app in H5. cbn in H5. lia.
Qed.

Lemma loop_closed :
  each_event (Closed settings (prompt params) (abortSignal params))
             (loop_log env settings params w).
Proof.
  destruct loop_run as (re & Hr & _).
  pose proof (Passes_built Hr (accounted_start settings)) as Hb.
  pose proof (Passes_accounted Hr (accounted_start settings)) as Ha. cbn [app] in Ha.
  intros pre e post E. specialize (Hb pre e post E). cbn [app] in Hb.
  destruct e; try exact Hb.
  assert (Hs : stream_calls (loop_log env settings params w) = O).
  { destruct re as [sv|sv|v sv|x].
    - now destruct Ha as (([H1 H2 H3 H4 H5] & _) & _).
    - now destruct Ha as (([H1 H2 H3 H4 H5] & _) & _).
    - now destruct Ha as ([H1 H2 H3 H4 H5] & _).
    - now destruct Ha as (_ & H5). }
  rewrite E, stream_calls_app in Hs. cbn in Hs. lia.
Qed.

Lemma iterationMessages_outbound conversation i :
  iterationMessages (buildSystemMessages settings) (prompt params) conversation i
  = outbound settings params conversation i.
Proof.
  unfold iterationMessages, outbound. destruct (i >? 1).
  - now rewrite <- !app_assoc.
  - now rewrite app_nil_r.
Qed.

(** In a log whose events are all [Closed], feedback reaches the next
    engine call. *)
Lemma closed_feedback (l : list (Event Value)) :
  each_event (Closed settings (prompt params) (abortSignal params)) l ->
  feedback_reaches_next_call settings params l.
Proof.
  intros Hl pre context v r mid call options post E Hc Hr Hne Hg Hs Hcall.
  pose proof (Hl pre _ _ E) as Hv. cbn in Hv.
  destruct Hv as (Hn & Kpre & Vpre & _ & rs & c & _ & Hconv & _).
  exists c. split; [exact Hconv|].
  assert (E' : l = (pre ++ EvVerify context (Fulfilled v) :: mid) ++ call :: post).
  { rewrite E, <- app_assoc. reflexivity. }
  pose proof (Hl _ _ _ E') as Hcl.
  assert (Hbal : balanced settings (pre ++ EvVerify context (Fulfilled v) :: mid)).
  { destruct call; try discriminate; cbn in Hcl; tauto. }
  specialize (Hbal Hn).
  rewrite verifications_app, generate_calls_app in Hbal. cbn in Hbal.
  assert (Vmid : verifications mid = O) by lia.
  assert (Kall : completed (pre ++ EvVerify context (Fulfilled v) :: mid) = false).
  { rewrite completed_app. cbn.
    now rewrite Kpre, Hc, (verifications_none_completed _ Vmid). }
  assert (Call : conversation_of (pre ++ EvVerify context (Fulfilled v) :: mid)
                 = (c ++ response_messages (Verify.result context)) ++ [feedbackMessage r]).
  { rewrite conversation_of_app. cbn.
    rewrite (conversation_of_idle _ Hg Vmid), app_nil_r, Hconv.
    unfold feedback_of. rewrite Hc, Hr.
    destruct (String.eqb r "") eqn:Er; [apply String.eqb_eq in Er; contradiction|].
    reflexivity. }
  assert (Gall : (Z.of_nat (generate_calls (pre ++ EvVerify context (Fulfilled v) :: mid))
                  + 1 >? 1) = true).
  { rewrite generate_calls_app. cbn. apply Z.gtb_lt. lia. }
  assert (Hopt : options
                 = pass_options settings (prompt params) (abortSignal params)
                     ((c ++ response_messages (Verify.result context)) ++ [feedbackMessage r])
                     (Z.of_nat (generate_calls
                                  (pre ++ EvVerify context (Fulfilled v) :: mid)) + 1)).
  { destruct call; try discriminate; cbn in Hcall; inversion Hcall; subst;
      cbn in Hcl; rewrite ?Kall, Call in Hcl; tauto. }
  rewrite Hopt. unfold pass_options. cbn [Call.messages engineOptions].
  rewrite iterationMessages_outbound. unfold outbound. rewrite Gall.
  now rewrite <- !app_assoc.
Qed.

End Run.

(** * The blocking loop *)

(** C1, as the code has it.  With no verification predicate configured,
    [loop] never reports [verified]; and for every budget N >= 1, a run in
    which no abort check sees the signal set, no engine call fails and no
    configured lifecycle callback ([onIterationStart], [onIterationEnd])
    fails makes exactly N engine calls and returns a result with completion
    reason [max-iterations] after N iterations. *)
Theorem loop_without_predicate_spends_budget {Value World : Type}
    (env : Env Value World) (settings : Settings.t Value World)
    (params : RalphLoopAgentCallParameters) (w : World) :
  Settings.verifyCompletion settings = None ->
  1 <= maxIterations settings ->
  (forall r, loop_outcome env settings params w = Returned r ->
             Result.completionReason r <> verified)
  /\ (forallb undisturbed (loop_log env settings params w) = true ->
      exists r,
        loop_outcome env settings params w = Returned r
        /\ Result.completionReason r = max_iterations
        /\ Z.of_nat (generate_calls (loop_log env settings params w))
           = maxIterations settings
        /\ Result.iterations r = maxIterations settings).
Proof.
  intros Hn HN.
  destruct (loop_run env settings params w) as (re & Hr & Hout).
  destruct (Passes_no_predicate Hn Hr) as (Hnever & Hquiet).
  pose proof (Passes_accounted Hr (accounted_start settings)) as Hacc.
  cbn [app] in Hacc. split.
  - intros r Hret. rewrite Hout in Hret.
    destruct re as [sv|sv|v sv|e]; cbn [loop_result] in Hret.
    + destruct (finalize_cases sv max_iterations None) as [(_ & E)|(i & x & _ & E)];
        rewrite E in Hret; inversion Hret; subst; cbn; discriminate.
    + destruct (finalize_cases sv aborted None) as [(_ & E)|(i & x & _ & E)];
        rewrite E in Hret; inversion Hret; subst; cbn; discriminate.
    + now destruct (Hnever v sv).
    + discriminate.
  - intros Hq. destruct (Hquiet Hq) as (sv & ->).
    destruct Hacc as ((Ht & _ & _) & Hi). destruct Ht as [H1 H2 H3 H4 H5].
    cbn [StreamVars.iteration vars0] in Hi.
    rewrite Z.max_l in Hi by lia.
    cbn [loop_result] in Hout.
    destruct (finalize_cases sv max_iterations None) as [(E0 & _)|(i & x & _ & E)].
    + rewrite H1 in E0. rewrite E0 in H4. cbn in H4. lia.
    + rewrite E in Hout. eexists. split; [exact Hout|]. cbn.
      repeat split; lia.
Qed.

(** C1 without the proviso on the callbacks fails: with budget 3 and no
    predicate, in a world where the signal is never set and every engine
    call succeeds, an [onIterationStart] that rejects in the second
    iteration makes [loop] throw after one engine call. *)
Lemma loop_callback_failure_stops_run :
  Settings.verifyCompletion balking = None
  /\ 1 <= maxIterations balking
  /\ abort_seen (loop_log test_env balking test_params quiet_world) = false
  /\ engine_failures (loop_log test_env balking test_params quiet_world) = O
  /\ generate_calls (loop_log test_env balking test_params quiet_world) = 1%nat
  /\ loop_outcome test_env balking test_params quiet_world
     = Threw (Raised "callback failure")
  /\ ~ (exists r,
          loop_outcome test_env balking test_params quiet_world = Returned r
          /\ Result.completionReason r = max_iterations
          /\ Z.of_nat (generate_calls (loop_log test_env balking test_params quiet_world))
             = maxIterations balking).
Proof.
  split; [reflexivity|]. split; [vm_compute; discriminate|].
  split; [reflexivity|]. split; [reflexivity|]. split; [reflexivity|].
  split; [reflexivity|].
  intros (r & Hr & _). vm_compute in Hr. discriminate.
Qed.

(** C2.  If the predicate reports [complete: true] in iteration k, the run
    ends there whatever is left of the budget: that verification is the last
    event, exactly k engine calls have been made (and k is between 1 and the
    budget), and [loop] returns completion reason [verified], [iterations]
    equal to k and the reason that the predicate gave. *)
Theorem loop_stops_when_verified {Value World : Type}
    (env : Env Value World) (settings : Settings.t Value World)
    (params : RalphLoopAgentCallParameters) (w : World)
    (context : Verify.Context) (v : VerifyCompletionResult) :
  In (EvVerify context (Fulfilled v)) (loop_log env settings params w) ->
  complete v = true ->
  exists r,
    loop_outcome env settings params w = Returned r
    /\ Result.completionReason r = verified
    /\ Result.iterations r = Verify.iteration context
    /\ Result.reason r = reason v
    /\ Z.of_nat (generate_calls (loop_log env settings params w))
       = Verify.iteration context
    /\ 1 <= Verify.iteration context <= maxIterations settings
    /\ exists pre, loop_log env settings params w
                   = pre ++ [EvVerify context (Fulfilled v)].
Proof.
  intros Hin Hc.
  destruct (loop_run env settings params w) as (re & Hr & Hout).
  pose proof (Passes_accounted Hr (accounted_start settings)) as Hacc.
  cbn [app] in Hacc.
  pose proof (in_completed _ _ _ Hin Hc) as Hdone.
  destruct re as [sv|sv|v' sv|e].
  - destruct Hacc as ((_ & _ & K) & _). congruence.
  - destruct Hacc as ((_ & _ & K) & _). congruence.
  - destruct Hacc as (Ht & _ & _ & Hi & pre & c & Hd & Hpre & Hic).
    rewrite Hd in Hin. apply in_app_or in Hin. destruct Hin as [Hin|Hin].
    { pose proof (in_completed _ _ _ Hin Hc). congruence. }
    destruct Hin as [Heq|[]]. inversion Heq; subst c v'. clear Heq.
    destruct Ht as [H1 H2 H3 H4 H5]. cbn [StreamVars.iteration vars0] in Hi.
    cbn [loop_result] in Hout.
    destruct (finalize_cases sv verified (reason v)) as [(E0 & _)|(i & x & _ & E)].
    + rewrite H1 in E0. rewrite E0 in H4. cbn in H4. lia.
    + rewrite E in Hout. eexists. split; [exact Hout|]. cbn.
      repeat split; try lia. now exists pre.
  - destruct Hacc as (K & _). congruence.
Qed.

Lemma results_of_no_calls {Value : Type} (l : list (Event Value)) :
  generate_calls l = O -> results_of l = [].
Proof.
  induction l as [|e l IH]; [reflexivity|].
  destruct e; cbn; try exact IH. discriminate.
Qed.

(** C9.  Whenever [loop] returns a result, its [iterations] field is the
    length of [allResults], its [result] field is the last element of
    [allResults], and its [text] is that record's text. *)
Theorem loop_result_is_last_record {Value World : Type}
    (env : Env Value World) (settings : Settings.t Value World)
    (params : RalphLoopAgentCallParameters) (w : World) (r : Result.t) :
  loop_outcome env settings params w = Returned r ->
  Result.iterations r = Z.of_nat (List.length (Result.allResults r))
  /\ (exists init, Result.allResults r = init ++ [Result.result r])
  /\ Result.text r = text (Result.result r).
Proof.
  intros Hret.
  destruct (loop_run env settings params w) as (re & Hr & Hout).
  pose proof (Passes_accounted Hr (accounted_start settings)) as Hacc.
  cbn [app] in Hacc. rewrite Hout in Hret.
  assert (Hfin : forall sv why because,
             tallied sv (loop_log env settings params w) ->
             finalize sv why because = Returned r ->
             Result.iterations r = Z.of_nat (List.length (Result.allResults r))
             /\ (exists init, Result.allResults r = init ++ [Result.result r])
             /\ Result.text r = text (Result.result r)).
  { intros sv why because [H1 H2 H3 H4 H5] Hf.
    destruct (finalize_cases sv why because) as [(_ & E)|(i & x & Hx & E)];
      rewrite E in Hf; inversion Hf; subst; cbn.
    split; [|split; [now exists i | reflexivity]].
    rewrite H3, H1, H4. reflexivity. }
  destruct re as [sv|sv|v sv|e]; cbn [loop_result] in Hret.
  - destruct Hacc as ((Ht & _) & _). eapply Hfin; eassumption.
  - destruct Hacc as ((Ht & _) & _). eapply Hfin; eassumption.
  - destruct Hacc as (Ht & _). eapply Hfin; eassumption.
  - discriminate.
Qed.

(** C5.  In blocking mode [allResults] holds one record per completed
    engine call.  Every pass of the loop body appends to it exactly the
    records of the calls it made and changes nothing else in it; at every
    verification the list handed to the predicate is the list of the records
    of the calls made so far, as long as their number; and when [loop]
    returns, [allResults] is that list for the whole run, as long as the
    number of engine calls made, with the record of the first call at
    index 0. *)
Theorem loop_records_one_per_call {Value World : Type}
    (env : Env Value World) (settings : Settings.t Value World)
    (params : RalphLoopAgentCallParameters) (w : World) :
  (forall vars s flow s',
      loop_body env settings (prompt params) (abortSignal params)
                (buildSystemMessages settings) vars s = (Returned flow, s') ->
      exists d,
        log s' = log s ++ d
        /\ LoopVars.allResults (flow_vars flow) = LoopVars.allResults vars ++ results_of d
        /\ List.length (results_of d) = generate_calls d)
  /\ each_event
       (fun pre e =>
          match e with
          | EvVerify context _ =>
              Verify.allResults context = results_of pre
              /\ List.length (Verify.allResults context) = generate_calls pre
          | _ => True
          end)
       (loop_log env settings params w)
  /\ (forall r,
        loop_outcome env settings params w = Returned r ->
        Result.allResults r = results_of (loop_log env settings params w)
        /\ List.length (Result.allResults r)
           = generate_calls (loop_log env settings params w)
        /\ forall pre options x post,
             loop_log env settings params w
               = pre ++ EvGenerateText options (Fulfilled x) :: post ->
             generate_calls pre = O ->
             nth_error (Result.allResults r) 0 = Some x).
Proof.
  split; [|split].
  - intros vars s flow s' Hbody.
    apply loop_body_pass in Hbody. destruct Hbody as (d & pe & Hd & Hp & Hflow).
    exists d. split; [exact Hd|].
    apply Pass_results in Hp.
    destruct pe as [|e|v sv|sv]; cbn [loop_flow] in Hflow; inversion Hflow; subst;
      cbn [flow_vars LoopVars.allResults shared StreamVars.allResults] in *.
    + destruct Hp as (-> & ->). now rewrite app_nil_r.
    + destruct Hp as (-> & -> & ->). split; reflexivity.
    + destruct Hp as (-> & -> & ->). split; reflexivity.
  - destruct (loop_run env settings params w) as (re & Hr & _).
    pose proof (Passes_built Hr (accounted_start settings)) as Hb.
    eapply each_event_weaken; [|exact Hb].
    intros pre [| | | |c o|] H; try exact I. cbn [app Built] in H.
    destruct H as (_ & _ & _ & Hlen & rs & cv & Hrs & _ & Hc).
    rewrite Hc. cbn [Verify.allResults pass_context]. rewrite <- Hrs.
    split; [reflexivity | exact Hlen].
  - intros r Hret.
    destruct (loop_run env settings params w) as (re & Hr & Hout).
    pose proof (Passes_accounted Hr (accounted_start settings)) as Hacc.
    cbn [app] in Hacc. rewrite Hout in Hret.
    assert (Hfin : forall sv why because,
               tallied sv (loop_log env settings params w) ->
               finalize sv why because = Returned r ->
               Result.allResults r = results_of (loop_log env settings params w)
               /\ List.length (Result.allResults r)
                  = generate_calls (loop_log env settings params w)).
    { intros sv why because [H1 H2 H3 H4 H5] Hf.
      destruct (finalize_cases sv why because) as [(_ & E)|(i & x & Hx & E)];
        rewrite E in Hf; inversion Hf; subst; cbn.
      rewrite H1. split; [reflexivity | exact H4]. }
    assert (Hall : Result.allResults r = results_of (loop_log env settings params w)
                   /\ List.length (Result.allResults r)
                      = generate_calls (loop_log env settings params w)).
    { destruct re as [sv|sv|v sv|e]; cbn [loop_result] in Hret.
      - destruct Hacc as ((Ht & _) & _). eapply Hfin; eassumption.
      - destruct Hacc as ((Ht & _) & _). eapply Hfin; eassumption.
      - destruct Hacc as (Ht & _). eapply Hfin; eassumption.
      - discriminate. }
    destruct Hall as (Hres & Hlen). split; [exact Hres|]. split; [exact Hlen|].
    intros pre options x post Hlog Hpre.
    rewrite Hres, Hlog, results_of_app, (results_of_no_calls _ Hpre). reflexivity.
Qed.

(** A run of [loop] that finds the signal set at its first check makes no
    engine call, leaves the [while] loop with [completionReason] set to
    [aborted], and then throws where it reads the text of the last record of
    an empty [allResults]. *)
Lemma loop_aborted_at_start {Value World : Type}
    (env : Env Value World) (settings : Settings.t Value World)
    (params : RalphLoopAgentCallParameters) (w : World) (a : AbortSignal) :
  abortSignal params = Some a ->
  env_aborted env a w = true ->
  1 <= maxIterations settings ->
  loop_log env settings params w = [EvAbortCheck true]
  /\ loop_outcome env settings params w
     = Threw (TypeError "Cannot read properties of undefined (reading 'text')").
Proof.
  intros Ha Hw HN. unfold loop_log, loop_outcome, loop.
  destruct (Z.to_nat (maxIterations settings)) as [|n] eqn:En; [lia|].
  cbn [loop_while LoopVars.iteration].
  destruct (0 <? maxIterations settings) eqn:E0; [|apply Z.ltb_ge in E0; lia].
  unfold loop_body, bind, readAborted. cbn [world start]. rewrite Ha, Hw.
  split; reflexivity.
Qed.

(** C3, at a concrete input: [loop] with budget 10, called with a signal
    that is already aborted, makes no engine call and does not return a
    result: it throws a [TypeError]. *)
Example loop_aborted_before_first_iteration :
  loop_log test_env (test_settings 10 None) test_params aborted_world
    = [EvAbortCheck true]
  /\ generate_calls (loop_log test_env (test_settings 10 None) test_params aborted_world)
     = O
  /\ loop_outcome test_env (test_settings 10 None) test_params aborted_world
     = Threw (TypeError "Cannot read properties of undefined (reading 'text')").
Proof. vm_compute. repeat split. Qed.

(** * Messages sent to the engine *)

(** C7.  In every run of [loop] and of [stream], iteration i (the number
    that [onIterationStart] is told, one more than the engine calls made
    before) sends the engine the system messages, then the message of the
    original prompt, then the conversation accumulated so far, then the
    continuation directive if and only if i > 1 ([outbound]).  This holds of
    every blocking call and of the streaming call of the final iteration of
    [stream]. *)
Theorem iteration_messages {Value World : Type}
    (env : Env Value World) (settings : Settings.t Value World)
    (params : RalphLoopAgentCallParameters) (w : World) :
  (forall vars s out s' d options o,
      loop_body env settings (prompt params) (abortSignal params)
                (buildSystemMessages settings) vars s = (out, s') ->
      log s' = log s ++ d ->
      In (EvGenerateText options o) d ->
      Call.messages options
      = outbound settings params (LoopVars.currentMessages vars)
                 (LoopVars.iteration vars + 1))
  /\ (forall vars s out s' d options o,
        stream_body env settings (prompt params) (abortSignal params)
                    (buildSystemMessages settings) vars s = (out, s') ->
        log s' = log s ++ d ->
        In (EvGenerateText options o) d ->
        Call.messages options
        = outbound settings params (StreamVars.currentMessages vars)
                   (StreamVars.iteration vars + 1))
  /\ each_event
    (fun pre e =>
       match e with
       | EvIterationStart i _ => i = Z.of_nat (generate_calls pre) + 1
       | EvGenerateText options _ =>
           Call.messages options
           = outbound settings params (conversation_of pre)
                      (Z.of_nat (generate_calls pre) + 1)
       | _ => True
       end)
    (loop_log env settings params w)
  /\ each_event
       (fun pre e =>
          match e with
          | EvIterationStart i _ => i = Z.of_nat (generate_calls pre) + 1
          | EvGenerateText options _ =>
              Call.messages options
              = outbound settings params (conversation_of pre)
                         (Z.of_nat (generate_calls pre) + 1)
          | EvStreamText options _ =>
              completed pre = false ->
              Call.messages options
              = outbound settings params (conversation_of pre)
                         (Z.of_nat (generate_calls pre) + 1)
          | _ => True
          end)
       (stream_log env settings params w).
Proof.
  split; [|split; [|split]].
  - intros vars s out s' d options o Hbody Hlog Hin.
    apply loop_body_pass in Hbody. destruct Hbody as (d' & pe & Hd & Hp & _).
    rewrite Hd in Hlog. apply app_inv_head in Hlog. subst d'.
    rewrite (Pass_call options o Hp Hin). cbn. apply iterationMessages_outbound.
  - intros vars s out s' d options o Hbody Hlog Hin.
    apply stream_body_pass in Hbody. destruct Hbody as (d' & pe & h & Hd & Hp & _).
    rewrite Hd in Hlog. apply app_inv_head in Hlog. subst d.
    apply in_app_or in Hin. destruct Hin as [Hin|Hin].
    + rewrite (Pass_call options o Hp Hin). cbn. apply iterationMessages_outbound.
    + destruct pe; cbn in Hin; intuition discriminate.
  - eapply each_event_weaken; [|apply loop_built].
    intros pre [|i o|options o| | |] H; try exact I; cbn in H.
    + exact H.
    + destruct H as (-> & _). cbn. apply iterationMessages_outbound.
  - eapply each_event_weaken; [|apply stream_closed].
    intros pre [|i o|options o| | |options h] H; try exact I; cbn in H.
    + exact H.
    + destruct H as (-> & _). cbn. apply iterationMessages_outbound.
    + intros Hc. rewrite Hc in H. destruct H as (-> & _). cbn.
      apply iterationMessages_outbound.
Qed.

(** The streaming call after an early completion is sent the system
    messages, the prompt and the conversation so far, and no continuation
    directive: it is not an iteration of its own. *)
Lemma early_streaming_call_messages {Value World : Type}
    (env : Env Value World) (settings : Settings.t Value World)
    (params : RalphLoopAgentCallParameters) (w : World) :
  each_event
    (fun pre e =>
       match e with
       | EvStreamText options _ =>
           completed pre = true ->
           options = earlyStreamOptions settings
                       (buildSystemMessages settings
                          ++ [initialUserMessage (prompt params)] ++ conversation_of pre)
                       (abortSignal params)
       | _ => True
       end)
    (stream_log env settings params w).
Proof.
  eapply each_event_weaken; [|apply stream_closed].
  intros pre [| | | | |options h] H; try exact I; cbn in H.
  intros Hc. rewrite Hc in H. now destruct H as (-> & _).
Qed.

(** C6.  When the predicate reports [complete: false] with a non-empty
    reason, the pass of the body of [loop] or [stream] continues with a
    message of role [user] whose text is "Feedback: " followed by the
    reason appended to [currentMessages] right after the response messages
    of that iteration; and in every run the next engine call is sent that
    message, after the history and before the continuation directive. *)
Theorem feedback_is_sent_to_next_call {Value World : Type}
    (env : Env Value World) (settings : Settings.t Value World)
    (params : RalphLoopAgentCallParameters) (w : World) :
  (forall vars s out s' d context v r,
      loop_body env settings (prompt params) (abortSignal params)
                (buildSystemMessages settings) vars s = (out, s') ->
      log s' = log s ++ d ->
      In (EvVerify context (Fulfilled v)) d ->
      complete v = false -> reason v = Some r -> r <> "" ->
      exists vars',
        out = Returned (Continue vars')
        /\ LoopVars.currentMessages vars'
           = LoopVars.currentMessages vars
               ++ response_messages (Verify.result context)
               ++ [{| role := user;
                      content := ContentParts
                        [TextPart (String.append "Feedback: " r)] |}])
  /\ (forall vars s out s' d context v r,
        stream_body env settings (prompt params) (abortSignal params)
                    (buildSystemMessages settings) vars s = (out, s') ->
        log s' = log s ++ d ->
        In (EvVerify context (Fulfilled v)) d ->
        complete v = false -> reason v = Some r -> r <> "" ->
        exists vars',
          out = Returned (StreamContinue vars')
          /\ StreamVars.currentMessages vars'
             = StreamVars.currentMessages vars
                 ++ response_messages (Verify.result context)
                 ++ [{| role := user;
                        content := ContentParts
                          [TextPart (String.append "Feedback: " r)] |}])
  /\ feedback_reaches_next_call settings params (loop_log env settings params w)
  /\ feedback_reaches_next_call settings params (stream_log env settings params w).
Proof.
  split; [|split; [|split]].
  - intros vars s out s' d context v r Hbody Hlog Hin Hc Hr Hne.
    apply loop_body_pass in Hbody. destruct Hbody as (d' & pe & Hd & Hp & ->).
    rewrite Hd in Hlog. apply app_inv_head in Hlog. subst d'.
    assert (Hpe : pe = PassContinues
                         (after_pass (shared vars) (Verify.result context)
                                     (feedback_of v)))
      by (eapply Pass_feedback; eassumption).
    rewrite Hpe. cbn [loop_flow after_pass].
    eexists. split; [reflexivity|]. cbn.
    rewrite (feedback_of_reason v Hc Hr Hne), <- app_assoc. reflexivity.
  - intros vars s out s' d context v r Hbody Hlog Hin Hc Hr Hne.
    apply stream_body_pass in Hbody. destruct Hbody as (d' & pe & h & Hd & Hp & ->).
    assert (Hpe : pe = PassContinues
                         (after_pass vars (Verify.result context) (feedback_of v))).
    { destruct pe as [|e|v' sv|sv]; cbn [early_log] in Hd;
        rewrite ?app_nil_r in Hd; rewrite Hd in Hlog; apply app_inv_head in Hlog.
      1, 2, 4: subst d'; eapply Pass_feedback; eassumption.
      subst d. apply in_app_or in Hin. destruct Hin as [Hin|[Hin|[]]].
      - eapply Pass_feedback; eassumption.
      - discriminate. }
    rewrite Hpe. cbn [stream_flow after_pass].
    eexists. split; [reflexivity|]. cbn.
    rewrite (feedback_of_reason v Hc Hr Hne), <- app_assoc. reflexivity.
  - apply closed_feedback, loop_closed.
  - apply closed_feedback, stream_closed.
Qed.

(** C8, as the code has it.  Every streaming call of [stream] is given the
    engine's step budget ([toolStopWhen], or [stepCountIs 20]) just as a
    blocking call is, with the same model, tools, tool choice, token limit,
    temperature and abort signal; and the streaming call of the final
    iteration is given exactly the options that a blocking call is given
    for its message list. *)
Theorem streaming_call_inputs {Value World : Type}
    (env : Env Value World) (settings : Settings.t Value World)
    (params : RalphLoopAgentCallParameters) (w : World) :
  each_event
    (fun pre e =>
       match e with
       | EvGenerateText options _ =>
           options = engineOptions settings (Call.messages options) (abortSignal params)
       | EvStreamText options _ =>
           Call.stopWhen options = Some (toolLoopStop settings)
           /\ Call.model options = Settings.model settings
           /\ Call.tools options = Settings.tools settings
           /\ Call.toolChoice options = Settings.toolChoice settings
           /\ Call.maxOutputTokens options = Settings.maxOutputTokens settings
           /\ Call.temperature options = Settings.temperature settings
           /\ Call.abortSignal options = abortSignal params
           /\ (completed pre = false ->
               options = engineOptions settings (Call.messages options)
                                       (abortSignal params))
       | _ => True
       end)
    (stream_log env settings params w).
Proof.
  eapply each_event_weaken; [|apply stream_closed].
  intros pre [| |options o| | |options h] H; try exact I; cbn in H.
  - destruct H as (-> & _). reflexivity.
  - destruct H as (-> & _). destruct (completed pre).
    + repeat split. discriminate.
    + repeat split.
Qed.

(** C8 as stated fails: the streaming call of a run with budget 2 is given
    the step budget [stepCountIs 20]. *)
Lemma streaming_call_is_given_step_budget :
  In (EvStreamText final_options test_handle)
     (stream_log test_env (test_settings 2 None) test_params quiet_world)
  /\ Call.stopWhen final_options = Some (stepCountIs 20)
  /\ Call.stopWhen final_options <> None.
Proof.
  split; [vm_compute; right; right; left; reflexivity|].
  split; [reflexivity | discriminate].
Qed.

(** * The streaming variant *)

(** C4, as the code has it.  For every budget N, [stream] makes at most
    max(N - 1, 0) blocking engine calls and at most one streaming call; it
    returns unless a collaborator fails; and when it returns, the streaming
    call is its last action and the only one, and the local [allResults] and
    [currentMessages] hold the records and the conversation of the blocking
    calls before it and nothing of the streamed call. *)
Theorem stream_calls_within_budget {Value World : Type}
    (env : Env Value World) (settings : Settings.t Value World)
    (params : RalphLoopAgentCallParameters) (w : World) :
  Z.of_nat (generate_calls (stream_log env settings params w))
    <= Z.max 0 (maxIterations settings - 1)
  /\ (stream_calls (stream_log env settings params w) <= 1)%nat
  /\ (failures (stream_log env settings params w) = O ->
      exists handle, stream_outcome env settings params w = Returned handle)
  /\ (forall handle,
        stream_outcome env settings params w = Returned handle ->
        exists pre options sv,
          stream_log env settings params w = pre ++ [EvStreamText options handle]
          /\ stream_calls pre = O
          /\ stream_vars env settings params w = Some sv
          /\ StreamVars.allResults sv = results_of pre
          /\ List.length (StreamVars.allResults sv) = generate_calls pre
          /\ StreamVars.currentMessages sv = conversation_of pre).
Proof.
  destruct (stream_run env settings params w) as (d & re & Hr & H).
  pose proof (Passes_signs Hr) as (_ & Hf & Hg).
  pose proof (Passes_accounted Hr (accounted_start settings)) as Ha.
  cbn [app StreamVars.iteration vars0] in *. rewrite Z.sub_0_r in Hg.
  destruct re as [sv|sv|v sv|e]; cbn [closing_options closing_vars] in H.
  1-3: destruct H as (h & Hl & Ho & Hv); rewrite Hl, generate_calls_app, stream_calls_app,
         failures_app, Ho, Hv; cbn.
  1-2: destruct Ha as (([H1 H2 H3 H4 H5] & _) & _).
  3: destruct Ha as ([H1 H2 H3 H4 H5] & _).
  1-3: rewrite H5; split; [lia|]; split; [lia|]; split; [eauto|];
       intros h' Hh; inversion Hh; subst h';
       eexists; eexists; eexists; split; [reflexivity|];
       split; [exact H5|]; split; [reflexivity|]; cbn;
       rewrite H1, H2, H4; repeat split.
  destruct H as (Hl & e' & He & Ho & Hv). rewrite Hl, Ho.
  destruct Ha as (_ & H5). rewrite H5, Hf.
  split; [lia|]. split; [lia|]. split; [discriminate|]. discriminate.
Qed.

(** C4 as stated fails for a budget of 0: no blocking call is made, which
    is more than N - 1 = -1, and the streaming call is still issued. *)
Lemma stream_with_budget_zero_still_streams :
  maxIterations (test_settings 0 None) = 0
  /\ generate_calls (stream_log test_env (test_settings 0 None) test_params quiet_world)
     = O
  /\ stream_calls (stream_log test_env (test_settings 0 None) test_params quiet_world)
     = 1%nat
  /\ ~ (Z.of_nat (generate_calls
                     (stream_log test_env (test_settings 0 None) test_params quiet_world))
        <= maxIterations (test_settings 0 None) - 1).
Proof. vm_compute. repeat split. intros H. apply H. reflexivity. Qed.

(** C10.  [stream] has no aborted end.  A run in which an abort check sees
    the signal set leaves the [while] loop there, then issues one streaming
    call and returns its handle.  If the signal is set when [stream] is
    called, no blocking call is made, and the streaming call is sent the
    system messages and the prompt only: no conversation, no feedback, no
    continuation directive. *)
Theorem stream_has_no_aborted_end {Value World : Type}
    (env : Env Value World) (settings : Settings.t Value World)
    (params : RalphLoopAgentCallParameters) (w : World) :
  (abort_seen (stream_log env settings params w) = true ->
   exists pre options handle,
     stream_log env settings params w
       = pre ++ [EvAbortCheck true; EvStreamText options handle]
     /\ stream_outcome env settings params w = Returned handle
     /\ stream_calls (stream_log env settings params w) = 1%nat)
  /\ (forall a,
        abortSignal params = Some a ->
        env_aborted env a w = true ->
        exists handle pre,
          stream_outcome env settings params w = Returned handle
          /\ stream_log env settings params w
             = pre ++ [EvStreamText
                         (engineOptions settings
                            (buildSystemMessages settings
                               ++ [initialUserMessage (prompt params)])
                            (abortSignal params))
                         handle]
          /\ (pre = [] \/ pre = [EvAbortCheck true])
          /\ generate_calls (stream_log env settings params w) = O
          /\ stream_calls (stream_log env settings params w) = 1%nat).
Proof.
  split.
  - intros Hseen.
    destruct (stream_run env settings params w) as (d & re & Hr & H).
    pose proof (Passes_signs Hr) as (Hab & _ & _).
    pose proof (Passes_accounted Hr (accounted_start settings)) as Ha.
    cbn [app] in Ha.
    destruct re as [sv|sv|v sv|e]; cbn [closing_options closing_vars] in H.
    + destruct H as (h & Hl & _). rewrite Hl, abort_seen_app, Hab in Hseen. discriminate.
    + destruct H as (h & Hl & Ho & _).
      destruct Ha as (([H1 H2 H3 H4 H5] & _) & _ & pre & Hd).
      exists pre. eexists. exists h. rewrite Hl, stream_calls_app, H5.
      split; [|split; [exact Ho | reflexivity]].
      rewrite Hd, <- app_assoc. reflexivity.
    + destruct H as (h & Hl & _). rewrite Hl, abort_seen_app, Hab in Hseen. discriminate.
    + destruct H as (Hl & _). rewrite Hl, Hab in Hseen. discriminate.
  - intros a Ha Hw.
    unfold stream_outcome, stream_log, stream, stream_frame, bind.
    destruct (Z.to_nat (maxIterations settings - 1)) as [|n] eqn:En;
      cbn [stream_while StreamVars.iteration];
      destruct (0 <? maxIterations settings - 1) eqn:E0;
      try (apply Z.ltb_lt in E0; lia); try (apply Z.ltb_ge in E0; lia).
    + unfold ret, streamText. cbn [world start StreamVars.currentMessages].
      destruct (env_streamText env _ w) as [h w'].
      exists h, []. cbn. repeat split. now left.
    + unfold stream_body, bind, readAborted. cbn [world start]. rewrite Ha, Hw.
      unfold ret, streamText, emit. cbn [world log StreamVars.currentMessages].
      destruct (env_streamText env _ w) as [h w'].
      exists h, [EvAbortCheck true]. cbn. repeat split. now right.
Qed.

(** * More about passes and runs *)

Section MoreRunFacts.
Context {Value World : Type}.
Variable env : Env Value World.
Variable settings : Settings.t Value World.
Variable task : string.
Variable signal : option AbortSignal.

Local Abbreviation start_log := (start_log settings).
Local Abbreviation end_log := (end_log settings).
Local Abbreviation pass_options := (pass_options settings task signal).
Local Abbreviation pass_log := (pass_log settings task signal).
Local Abbreviation pass_context := (pass_context task).
Local Abbreviation PassThrows := (PassThrows settings task signal).
Local Abbreviation Pass := (Pass settings task signal).
Local Abbreviation Passes := (Passes settings task signal).
Local Abbreviation accounted := (accounted settings).
Local Abbreviation balanced := (balanced settings).
Local Abbreviation Ordered := (Ordered settings).

Lemma previous_app (l q : list (Event Value)) :
  q <> [] -> previous (l ++ q) = previous q.
Proof.
  intros Hq. induction l as [|a l IH]; [reflexivity|].
  cbn [app previous]. destruct (l ++ q) as [|b t] eqn:E.
  - destruct l; [cbn in E; contradiction | discriminate].
  - exact IH.
Qed.

Lemma in_failures (l : list (Event Value)) ev x :
  In ev l -> rejection ev = Some x -> failures l <> O.
Proof.
  intros Hin Hr. apply in_split in Hin. destruct Hin as (l1 & l2 & ->).
  rewrite failures_app.
  destruct ev as [|i [u|y]|o [r|y]|i d r [u|y]|c [v|y]|]; cbn in *;
    try discriminate; lia.
Qed.

(** A pass that throws ends with the rejected call, the only one of the
    pass, and the error thrown is the one of that call. *)
Lemma Pass_rejected vars d e :
  Pass vars d (PassThrew e) ->
  exists pre ev, d = pre ++ [ev] /\ rejection ev = Some e /\ failures pre = O.
Proof.
  inversion 1 as [|? ? Hthrow| | |]; subst.
  destruct Hthrow; unfold pass_log, start_log, end_log;
    destruct (Settings.onIterationStart settings), (Settings.onIterationEnd settings);
    cbn [app];
    match goal with
    | |- exists pre ev, ?l = _ /\ _ =>
        exists (removelast l), (last l (EvAbortCheck false))
    end; cbn; repeat split.
Qed.

(** A run that throws ends with the rejected call; no call was rejected
    before it.  A run that does not throw has no rejected call. *)
Lemma Passes_rejected limit vars d re :
  Passes limit vars d re ->
  match re with
  | RunThrew e =>
      exists pre ev, d = pre ++ [ev] /\ rejection ev = Some e /\ failures pre = O
  | _ => failures d = O
  end.
Proof.
  induction 1 as [vars Hle|vars d Hlt Hp|vars d e Hlt Hp|vars d v vars' Hlt Hp
                 |vars d vars' d' re Hlt Hp Hr IH].
  - reflexivity.
  - now destruct (Pass_signs Hp) as (_ & F & _).
  - now apply Pass_rejected with vars.
  - now destruct (Pass_signs Hp) as (_ & F & _).
  - destruct (Pass_signs Hp) as (_ & F & _).
    destruct re as [sv|sv|v sv|e]; try (rewrite failures_app, F, IH; reflexivity).
    destruct IH as (pre & ev & -> & Hrej & Hpre).
    exists (d ++ pre), ev. rewrite app_assoc, failures_app, F, Hpre.
    repeat split. exact Hrej.
Qed.

(** A run that makes no engine call did nothing at all, or saw the signal
    set at its first check, or threw in its first pass. *)
Lemma Passes_no_calls limit vars d re :
  Passes limit vars d re ->
  generate_calls d = O ->
  match re with
  | RunBudget sv => d = [] /\ limit <= StreamVars.iteration vars
  | RunAborted sv => d = [EvAbortCheck true]
  | RunVerified _ _ => False
  | RunThrew _ => True
  end.
Proof.
  intros Hr Hg.
  destruct Hr as [vars Hle|vars d Hlt Hp|vars d e Hlt Hp|vars d v vars' Hlt Hp
                 |vars d vars' d' re Hlt Hp Hr].
  - split; [reflexivity | exact Hle].
  - now inversion Hp.
  - exact I.
  - apply Pass_results in Hp. destruct Hp as (_ & G & _). lia.
  - apply Pass_results in Hp. destruct Hp as (_ & G & _).
    rewrite generate_calls_app in Hg. lia.
Qed.

Lemma Pass_completed vars d pe :
  Pass vars d pe ->
  completed d = match pe with PassVerified _ _ => true | _ => false end.
Proof.
  destruct 1 as [|d e Hthrow|r d v Hv Hcv|r d v Hv Hcv|r d Hv].
  - reflexivity.
  - now apply PassThrows_counts in Hthrow.
  - destruct (pass_log_counts settings task signal (StreamVars.currentMessages vars)
                (StreamVars.iteration vars + 1) d r) as (_ & _ & _ & _ & K & _).
    rewrite completed_app, K. cbn. now rewrite Hcv.
  - destruct (pass_log_counts settings task signal (StreamVars.currentMessages vars)
                (StreamVars.iteration vars + 1) d r) as (_ & _ & _ & _ & K & _).
    rewrite completed_app, K. cbn. now rewrite Hcv.
  - now destruct (pass_log_counts settings task signal (StreamVars.currentMessages vars)
                    (StreamVars.iteration vars + 1) d r) as (_ & _ & _ & _ & K & _).
Qed.

(** A run in which nothing is rejected, no abort is seen and no
    verification reports completion ends because the budget is spent. *)
Lemma Passes_undisturbed limit vars d re :
  Passes limit vars d re ->
  forallb undisturbed d = true ->
  completed d = false ->
  exists sv, re = RunBudget sv.
Proof.
  induction 1 as [vars Hle|vars d Hlt Hp|vars d e Hlt Hp|vars d v vars' Hlt Hp
                 |vars d vars' d' re Hlt Hp Hr IH]; intros Hq Hc.
  - eauto.
  - inversion Hp; subst. discriminate.
  - inversion Hp as [|? ? Ht| | |]; subst.
    apply PassThrows_disturbed in Ht. congruence.
  - apply Pass_completed in Hp. congruence.
  - rewrite forallb_app in Hq. apply andb_prop in Hq.
    rewrite completed_app in Hc. apply orb_false_elim in Hc.
    now apply IH.
Qed.

(** Without a predicate no verification is logged. *)
Lemma Passes_unpredicated limit vars d re :
  Settings.verifyCompletion settings = None ->
  Passes limit vars d re -> verifications d = O.
Proof.
  intros Hn.
  assert (Hpass : forall vars d pe, Pass vars d pe -> verifications d = O).
  { intros vars0' d0 pe [|d1 e Hthrow|r d1 v Hv Hcv|r d1 v Hv Hcv|r d1 Hv];
      try contradiction; try reflexivity.
    - destruct Hthrow; try contradiction;
        unfold pass_log, start_log, end_log;
        destruct (Settings.onIterationStart settings),
                 (Settings.onIterationEnd settings); reflexivity.
    - now destruct (pass_log_counts settings task signal
                      (StreamVars.currentMessages vars0')
                      (StreamVars.iteration vars0' + 1) d1 r) as (_ & _ & _ & V & _). }
  induction 1 as [vars Hle|vars d Hlt Hp|vars d e Hlt Hp|vars d v vars' Hlt Hp
                 |vars d vars' d' re Hlt Hp Hr IH]; eauto.
  rewrite verifications_app, IH, (Hpass _ _ _ Hp). reflexivity.
Qed.

(** The events of a pass come in the fixed order. *)
Lemma Pass_ordered vars d pe l :
  Pass vars d pe ->
  StreamVars.iteration vars = Z.of_nat (generate_calls l) ->
  each_event (fun pre e => Ordered (l ++ pre) e) d.
Proof.
  intros Hp Hi.
  destruct Hp as [|d e Hthrow|r d v Hv Hcv|r d v Hv Hcv|r d Hv];
    [ | destruct Hthrow | | | ];
    unfold pass_log, start_log, end_log, pass_context, Ordered;
    destruct (Settings.onIterationStart settings) eqn:Es,
             (Settings.onIterationEnd settings) eqn:Ee;
    cbn [app]; repeat (apply each_event_cons; [|]); try apply each_event_nil;
    try exact I; try contradiction;
    try (split; [rewrite generate_calls_app; cbn; lia
                |eexists; rewrite previous_app by discriminate; reflexivity]);
    cbn [Verify.result];
    try (rewrite previous_app by discriminate; cbn;
         solve [reflexivity | eexists; reflexivity | eexists; eexists; reflexivity]).
Qed.

Lemma Passes_ordered limit vars d re l :
  Passes limit vars d re -> accounted vars l ->
  each_event (fun pre e => Ordered (l ++ pre) e) d.
Proof.
  intros Hr. revert l.
  induction Hr as [vars Hle|vars d Hlt Hp|vars d e Hlt Hp|vars d v vars' Hlt Hp
                  |vars d vars' d' re Hlt Hp Hr IH]; intros l Hacc;
    assert (Hi : StreamVars.iteration vars = Z.of_nat (generate_calls l))
      by (now destruct Hacc as ([H1 H2 H3 H4 H5] & _)).
  - apply each_event_nil.
  - eapply Pass_ordered; eassumption.
  - eapply Pass_ordered; eassumption.
  - eapply Pass_ordered; eassumption.
  - apply each_event_app; [eapply Pass_ordered; eassumption|].
    pose proof (Pass_accounted Hp Hacc) as Hacc'. cbn in Hacc'.
    eapply each_event_weaken; [|apply (IH _ Hacc')].
    intros pre e. cbn beta. now rewrite app_assoc.
Qed.

(** What a pass adds to the conversation. *)
Lemma Pass_messages vars d pe :
  Pass vars d pe ->
  match pe with
  | PassAborted => conversation_of d = []
  | PassThrew e => True
  | PassVerified _ vars' | PassContinues vars' =>
      StreamVars.currentMessages vars'
      = StreamVars.currentMessages vars ++ conversation_of d
  end.
Proof.
  destruct 1 as [|d e Hthrow|r d v Hv Hcv|r d v Hv Hcv|r d Hv];
    try exact I; try reflexivity;
    destruct (pass_log_counts settings task signal (StreamVars.currentMessages vars)
                (StreamVars.iteration vars + 1) d r) as (_ & _ & C & _);
    rewrite ?conversation_of_app, C; cbn; unfold feedback_of; rewrite ?Hcv;
    rewrite ?app_nil_r, <- ?app_assoc; reflexivity.
Qed.

(** Walk through a body in hypothesis [H], as for the passes. *)
Ltac stroll H :=
  unfold bind, ret, throw, readAborted, dateNow, callOnIterationStart,
    callOnIterationEnd, generateText, streamText, await, yield, emit in H;
  cbn [world log] in H;
  repeat first
    [ progress cbn beta iota zeta in H
    | progress cbn [world log] in H
    | match type of H with
      | context [match Settings.onIterationStart settings with _ => _ end] =>
          destruct (Settings.onIterationStart settings)
      | context [match Settings.onIterationEnd settings with _ => _ end] =>
          destruct (Settings.onIterationEnd settings)
      | context [match Settings.verifyCompletion settings with _ => _ end] =>
          destruct (Settings.verifyCompletion settings)
      | context [env_streamText env ?o ?w] =>
          destruct (env_streamText env o w) as [? ?]
      | context [let (_, _) := ?c in _] =>
          destruct c as [[?|?] ?]
      | context [let (_, _) := ?c in _] =>
          destruct c as [? ?]
      | context [if complete ?v then _ else _] =>
          destruct (complete v)
      end ].

(** Called without a signal, a pass of either body logs an abort check that
    saw nothing, and no other abort check. *)
Lemma loop_body_unsignalled vars (s s' : Sys Value World) out :
  loop_body env settings task None (buildSystemMessages settings) vars s = (out, s') ->
  abort_seen (log s') = abort_seen (log s).
Proof.
  unfold loop_body. intros H. stroll H.
  all: inversion H; subst; clear H; cbn [log].
  all: rewrite ?abort_seen_app; cbn; rewrite ?orb_false_r; reflexivity.
Qed.

Lemma stream_body_unsignalled vars (s s' : Sys Value World) out :
  stream_body env settings task None (buildSystemMessages settings) vars s = (out, s') ->
  abort_seen (log s') = abort_seen (log s).
Proof.
  unfold stream_body. intros H. stroll H.
  all: inversion H; subst; clear H; cbn [log].
  all: rewrite ?abort_seen_app; cbn; rewrite ?orb_false_r; reflexivity.
Qed.

Lemma loop_while_unsignalled fuel vars (s s' : Sys Value World) out :
  loop_while env settings fuel task None (buildSystemMessages settings) vars s
    = (out, s') ->
  abort_seen (log s') = abort_seen (log s).
Proof.
  revert vars s. induction fuel as [|fuel IH]; intros vars s H;
    cbn [loop_while] in H;
    destruct (LoopVars.iteration vars <? maxIterations settings);
    try (inversion H; subst; reflexivity).
  unfold bind in H.
  destruct (loop_body env settings task None (buildSystemMessages settings) vars s)
    as [o s1] eqn:Hbody.
  apply loop_body_unsignalled in Hbody. rewrite <- Hbody.
  destruct o as [[vars'|vars']|e|]; try (inversion H; subst; reflexivity).
  now apply IH in H.
Qed.

Lemma stream_while_unsignalled fuel vars (s s' : Sys Value World) out :
  stream_while env settings fuel task None (buildSystemMessages settings) vars s
    = (out, s') ->
  abort_seen (log s') = abort_seen (log s).
Proof.
  revert vars s. induction fuel as [|fuel IH]; intros vars s H;
    cbn [stream_while] in H;
    destruct (StreamVars.iteration vars <? maxIterations settings - 1);
    try (inversion H; subst; reflexivity).
  unfold bind in H.
  destruct (stream_body env settings task None (buildSystemMessages settings) vars s)
    as [o s1] eqn:Hbody.
  apply stream_body_unsignalled in Hbody. rewrite <- Hbody.
  destruct o as [[vars'|vars'|h vars']|e|]; try (inversion H; subst; reflexivity).
  now apply IH in H.
Qed.

End MoreRunFacts.

(** * More about [loop] *)

(** X1.  With a budget of zero or less, [loop] does nothing at all: no
    abort check, no callback, no engine call; and it throws the [TypeError]
    of reading the text of a record that does not exist. *)
Theorem loop_without_budget {Value World : Type}
    (env : Env Value World) (settings : Settings.t Value World)
    (params : RalphLoopAgentCallParameters) (w : World) :
  maxIterations settings <= 0 ->
  loop_log env settings params w = []
  /\ loop_outcome env settings params w
     = Threw (TypeError "Cannot read properties of undefined (reading 'text')").
Proof.
  intros HN.
  destruct (loop_run env settings params w) as (re & Hr & ->).
  inversion Hr; subst; cbn [StreamVars.iteration vars0] in *; try lia.
  split; [reflexivity|]. cbn [loop_result]. now apply finalize_empty.
Qed.

(** X2.  Whatever the engine, the callbacks and the predicate do, [loop]
    makes at most max(N, 0) engine calls for a budget N, never issues a
    streaming call, and sees at most one call rejected. *)
Theorem loop_calls_within_budget {Value World : Type}
    (env : Env Value World) (settings : Settings.t Value World)
    (params : RalphLoopAgentCallParameters) (w : World) :
  Z.of_nat (generate_calls (loop_log env settings params w))
    <= Z.max 0 (maxIterations settings)
  /\ stream_calls (loop_log env settings params w) = O
  /\ (failures (loop_log env settings params w) <= 1)%nat.
Proof.
  destruct (loop_run env settings params w) as (re & Hr & _).
  pose proof (Passes_signs Hr) as (_ & Hf & Hg).
  pose proof (Passes_accounted Hr (accounted_start settings)) as Ha.
  cbn [app StreamVars.iteration vars0] in *. rewrite Z.sub_0_r in Hg.
  split; [exact Hg|]. split.
  - destruct re as [sv|sv|v sv|e].
    + now destruct Ha as (([H1 H2 H3 H4 H5] & _) & _).
    + now destruct Ha as (([H1 H2 H3 H4 H5] & _) & _).
    + now destruct Ha as ([H1 H2 H3 H4 H5] & _).
    + now destruct Ha as (_ & H5).
  - rewrite Hf. destruct re; lia.
Qed.

(** X3.  A rejected call ends the run of [loop]: the rejection is the last
    event, nothing was rejected before it, no result is returned, and the
    error that [loop] throws is the error of that call. *)
Theorem loop_failure_propagates {Value World : Type}
    (env : Env Value World) (settings : Settings.t Value World)
    (params : RalphLoopAgentCallParameters) (w : World)
    (ev : Event Value) (e : Error) :
  In ev (loop_log env settings params w) ->
  rejection ev = Some e ->
  loop_outcome env settings params w = Threw e
  /\ exists pre, loop_log env settings params w = pre ++ [ev] /\ failures pre = O.
Proof.
  intros Hin Hrej.
  destruct (loop_run env settings params w) as (re & Hr & ->).
  pose proof (Passes_rejected Hr) as H.
  pose proof (in_failures _ _ Hin Hrej) as Hf.
  destruct re as [sv|sv|v sv|e']; try contradiction.
  destruct H as (pre & ev' & Hlog & Hrej' & Hpre).
  rewrite Hlog in Hin. apply in_app_or in Hin. destruct Hin as [Hin|[Hin|[]]].
  - now destruct (in_failures _ _ Hin Hrej).
  - subst ev'. cbn [loop_result]. split; [congruence|]. now exists pre.
Qed.

(** X4.  [loop] throws in two cases only: a call was rejected, and then the
    rejection is the last event and its error is the one thrown; or no
    engine call was made, because the budget is zero or less or because the
    signal was set at the first check, and then the error is the
    [TypeError] of the missing record. *)
Theorem loop_throws_only {Value World : Type}
    (env : Env Value World) (settings : Settings.t Value World)
    (params : RalphLoopAgentCallParameters) (w : World) (e : Error) :
  loop_outcome env settings params w = Threw e ->
  (exists pre ev, loop_log env settings params w = pre ++ [ev]
                  /\ rejection ev = Some e)
  \/ (e = TypeError "Cannot read properties of undefined (reading 'text')"
      /\ failures (loop_log env settings params w) = O
      /\ ((loop_log env settings params w = [] /\ maxIterations settings <= 0)
          \/ loop_log env settings params w = [EvAbortCheck true])).
Proof.
  intros Hout.
  destruct (loop_run env settings params w) as (re & Hr & Hres).
  rewrite Hres in Hout.
  pose proof (Passes_rejected Hr) as Hrej.
  pose proof (Passes_accounted Hr (accounted_start settings)) as Ha.
  cbn [app] in Ha.
  assert (Hempty : forall sv why because,
             tallied sv (loop_log env settings params w) ->
             finalize sv why because = Threw e ->
             e = TypeError "Cannot read properties of undefined (reading 'text')"
             /\ generate_calls (loop_log env settings params w) = O).
  { intros sv why because [H1 H2 H3 H4 H5] Hf.
    destruct (finalize_cases sv why because) as [(E0 & E)|(i & x & _ & E)];
      rewrite E in Hf; inversion Hf; subst.
    split; [reflexivity|]. rewrite H1 in E0. rewrite E0 in H4. now cbn in H4. }
  destruct re as [sv|sv|v sv|e']; cbn [loop_result] in Hout.
  - right. destruct Ha as ((Ht & _) & _).
    destruct (Hempty _ _ _ Ht Hout) as (-> & Hg).
    destruct (Passes_no_calls Hr Hg) as (Hl & HN).
    repeat split; [exact Hrej|]. left. split; [exact Hl | exact HN].
  - right. destruct Ha as ((Ht & _) & _).
    destruct (Hempty _ _ _ Ht Hout) as (-> & Hg).
    pose proof (Passes_no_calls Hr Hg) as Hl.
    repeat split; [exact Hrej|]. right. exact Hl.
  - exfalso. destruct Ha as (Ht & _ & _ & Hi & _).
    destruct (Hempty _ _ _ Ht Hout) as (_ & Hg).
    destruct Ht as [H1 H2 H3 H4 H5]. cbn in Hi. lia.
  - left. inversion Hout; subst. destruct Hrej as (pre & ev & Hl & Hr' & _).
    now exists pre, ev.
Qed.

(** X5.  What the result of [loop] says about the run.  The completion
    reason is [verified] exactly when a verification reported completion,
    and [aborted] exactly when an abort check saw the signal set, which is
    then the last event; a result with [max-iterations] has as many
    iterations as the budget; the reason string is only set on [verified];
    and a returned result means that no call was rejected and that between
    1 and N iterations ran, one engine call each. *)
Theorem loop_completion_reason {Value World : Type}
    (env : Env Value World) (settings : Settings.t Value World)
    (params : RalphLoopAgentCallParameters) (w : World) (r : Result.t) :
  loop_outcome env settings params w = Returned r ->
  (Result.completionReason r = verified
   <-> completed (loop_log env settings params w) = true)
  /\ (Result.completionReason r = aborted
      <-> abort_seen (loop_log env settings params w) = true)
  /\ (Result.completionReason r = aborted ->
      exists pre, loop_log env settings params w = pre ++ [EvAbortCheck true])
  /\ (Result.completionReason r = max_iterations ->
      Result.iterations r = maxIterations settings)
  /\ (Result.completionReason r <> verified -> Result.reason r = None)
  /\ failures (loop_log env settings params w) = O
  /\ 1 <= Result.iterations r <= maxIterations settings
  /\ Result.iterations r = Z.of_nat (generate_calls (loop_log env settings params w)).
Proof.
  intros Hout.
  destruct (loop_run env settings params w) as (re & Hr & Hres).
  rewrite Hres in Hout.
  pose proof (Passes_signs Hr) as (Hab & Hf & _).
  pose proof (Passes_accounted Hr (accounted_start settings)) as Ha.
  cbn [app StreamVars.iteration vars0] in Ha.
  assert (Hfin : forall sv why because,
             tallied sv (loop_log env settings params w) ->
             finalize sv why because = Returned r ->
             Result.completionReason r = why /\ Result.reason r = because
             /\ Result.iterations r = StreamVars.iteration sv
             /\ 1 <= StreamVars.iteration sv
             /\ StreamVars.iteration sv
                = Z.of_nat (generate_calls (loop_log env settings params w))).
  { intros sv why because [H1 H2 H3 H4 H5] Hfz.
    destruct (finalize_cases sv why because) as [(_ & E)|(i & x & Hx & E)];
      rewrite E in Hfz; inversion Hfz; subst; cbn.
    repeat split; [|exact H3]. rewrite H1 in Hx. rewrite Hx, length_app in H4.
    cbn in H4. lia. }
  destruct re as [sv|sv|v sv|e]; cbn [loop_result] in Hout; try discriminate.
  - destruct Ha as ((Ht & _ & Hc) & Hi).
    destruct (Hfin _ _ _ Ht Hout) as (Hw & Hb & Hn & H1 & Hg).
    rewrite Hw, Hb, Hn, Hab, Hc, Hf.
    repeat split; try discriminate; try lia.
  - destruct Ha as ((Ht & _ & Hc) & Hi & pre & Hpre).
    destruct (Hfin _ _ _ Ht Hout) as (Hw & Hb & Hn & H1 & Hg).
    rewrite Hw, Hb, Hn, Hab, Hc, Hf.
    repeat split; try discriminate; try lia. now exists pre.
  - destruct Ha as (Ht & _ & Hc & Hi & _).
    destruct (Hfin _ _ _ Ht Hout) as (Hw & Hb & Hn & H1 & Hg).
    rewrite Hw, Hn, Hab, Hc, Hf.
    repeat split; try discriminate; try lia. intros H; now destruct H.
Qed.

(** X6.  With or without a predicate: for every budget N >= 1, a run of
    [loop] in which no verification reports completion, no abort check sees
    the signal set and no call is rejected makes exactly N engine calls and
    returns [max-iterations] with N iterations and no reason; with a
    predicate configured, it was asked N times. *)
Theorem loop_spends_budget_unless_verified {Value World : Type}
    (env : Env Value World) (settings : Settings.t Value World)
    (params : RalphLoopAgentCallParameters) (w : World) :
  1 <= maxIterations settings ->
  forallb undisturbed (loop_log env settings params w) = true ->
  completed (loop_log env settings params w) = false ->
  exists r,
    loop_outcome env settings params w = Returned r
    /\ Result.completionReason r = max_iterations
    /\ Result.reason r = None
    /\ Result.iterations r = maxIterations settings
    /\ Z.of_nat (generate_calls (loop_log env settings params w))
       = maxIterations settings
    /\ (Settings.verifyCompletion settings <> None ->
        Z.of_nat (verifications (loop_log env settings params w))
        = maxIterations settings).
Proof.
  intros HN Hq Hc.
  destruct (loop_run env settings params w) as (re & Hr & Hres).
  destruct (Passes_undisturbed Hr Hq Hc) as (sv & ->).
  pose proof (Passes_accounted Hr (accounted_start settings)) as Ha.
  cbn [app StreamVars.iteration vars0] in Ha.
  destruct Ha as (([H1 H2 H3 H4 H5] & Hb & _) & Hi).
  rewrite Z.max_l in Hi by lia. cbn [loop_result] in Hres.
  destruct (finalize_cases sv max_iterations None) as [(E0 & _)|(i & x & _ & E)].
  - rewrite H1 in E0. rewrite E0 in H4. cbn in H4. lia.
  - rewrite E in Hres. eexists. split; [exact Hres|]. cbn.
    repeat split; try lia. intros Hn. rewrite (Hb Hn). lia.
Qed.

(** X7.  The budget defaults to 10: when no stop condition is configured,
    or one whose type is not "iteration-count", an undisturbed run of
    [loop] in which no verification reports completion makes exactly 10
    engine calls. *)
Theorem loop_default_budget {Value World : Type}
    (env : Env Value World) (settings : Settings.t Value World)
    (params : RalphLoopAgentCallParameters) (w : World) :
  (Settings.stopWhen settings = None
   \/ exists c, Settings.stopWhen settings = Some c
                /\ String.eqb (type c) "iteration-count" = false) ->
  forallb undisturbed (loop_log env settings params w) = true ->
  completed (loop_log env settings params w) = false ->
  generate_calls (loop_log env settings params w) = 10%nat
  /\ exists r, loop_outcome env settings params w = Returned r
               /\ Result.iterations r = 10
               /\ Result.completionReason r = max_iterations.
Proof.
  intros Hstop Hq Hc.
  assert (HN : maxIterations settings = 10).
  { unfold maxIterations. destruct Hstop as [-> | (c & -> & ->)]; reflexivity. }
  destruct (loop_run env settings params w) as (re & Hr & Hres).
  destruct (Passes_undisturbed Hr Hq Hc) as (sv & ->).
  pose proof (Passes_accounted Hr (accounted_start settings)) as Ha.
  cbn [app StreamVars.iteration vars0] in Ha.
  destruct Ha as (([H1 H2 H3 H4 H5] & _) & Hi).
  rewrite HN in Hi. cbn in Hi. cbn [loop_result] in Hres.
  split; [lia|].
  destruct (finalize_cases sv max_iterations None) as [(E0 & _)|(i & x & _ & E)].
  - rewrite H1 in E0. rewrite E0 in H4. cbn in H4. lia.
  - rewrite E in Hres. eexists. split; [exact Hres|]. cbn. split; [lia | reflexivity].
Qed.

(** X8.  Called without an abort signal, neither method ever sees an
    abort: every abort check in the log saw nothing, and [loop] never
    returns [aborted]. *)
Theorem no_signal_no_abort {Value World : Type}
    (env : Env Value World) (settings : Settings.t Value World)
    (params : RalphLoopAgentCallParameters) (w : World) :
  abortSignal params = None ->
  abort_seen (loop_log env settings params w) = false
  /\ abort_seen (stream_log env settings params w) = false
  /\ forall r, loop_outcome env settings params w = Returned r ->
               Result.completionReason r <> aborted.
Proof.
  intros Hsig.
  assert (Hloop : abort_seen (loop_log env settings params w) = false).
  { unfold loop_log, loop, bind. rewrite Hsig.
    match goal with |- context [loop_while ?e ?st ?f ?p ?sg ?sm ?v ?s0] =>
      destruct (loop_while e st f p sg sm v s0) as [o s1] eqn:Hw end.
    apply loop_while_unsignalled in Hw. cbn [log start abort_seen] in Hw.
    destruct o as [vars| |]; cbn; try exact Hw.
    destruct (array_at _ _); exact Hw. }
  split; [exact Hloop|]. split.
  - unfold stream_log, stream, stream_frame, bind. rewrite Hsig.
    match goal with |- context [stream_while ?e ?st ?f ?p ?sg ?sm ?v ?s0] =>
      destruct (stream_while e st f p sg sm v s0) as [o s1] eqn:Hw end.
    apply stream_while_unsignalled in Hw. cbn [log start abort_seen] in Hw.
    destruct o as [[vars|vars|h vars]| |]; cbn; try exact Hw;
      unfold streamText; destruct (env_streamText env _ (world s1)) as [h' w'];
      cbn; rewrite abort_seen_app, Hw; reflexivity.
  - intros r Hout Hab.
    destruct (loop_run env settings params w) as (re & Hr & Hres).
    rewrite Hres in Hout.
    pose proof (Passes_signs Hr) as (Hseen & _ & _).
    destruct re as [sv|sv|v sv|e]; cbn [loop_result] in Hout; try discriminate.
    + destruct (finalize_cases sv max_iterations None) as [(_ & E)|(i & x & _ & E)];
        rewrite E in Hout; inversion Hout; subst; discriminate.
    + congruence.
    + destruct (finalize_cases sv verified (reason v)) as [(_ & E)|(i & x & _ & E)];
        rewrite E in Hout; inversion Hout; subst; discriminate.
Qed.

(** * More about the predicate and the callbacks *)

Lemma results_le_calls {Value : Type} (l : list (Event Value)) :
  (List.length (results_of l) <= generate_calls l)%nat.
Proof.
  induction l as [|e l IH]; [apply Nat.le_refl|].
  destruct e as [b|i o|options [r|y]|i d r o|c o|options h]; cbn; lia.
Qed.

(** When every call made so far completed, the last record is the record
    of the latest call. *)
Lemma latest_record {Value : Type} (l : list (Event Value)) rs x :
  results_of l = rs ++ [x] ->
  List.length (results_of l) = generate_calls l ->
  exists before options after,
    l = before ++ EvGenerateText options (Fulfilled x) :: after
    /\ generate_calls after = O.
Proof.
  revert rs x. induction l as [|e l IH] using rev_ind; intros rs x Hres Hlen.
  - destruct rs; discriminate.
  - rewrite results_of_app in Hres. rewrite results_of_app, generate_calls_app in Hlen.
    pose proof (results_le_calls l) as Hle.
    destruct e as [b|i o|options [r|y]|i d r o|c o|options h];
      cbn in Hres, Hlen; rewrite ?app_nil_r, ?length_app in *; cbn in Hlen.
    3:{ apply app_inj_tail in Hres. destruct Hres as (_ & ->).
        exists l, options, []. split; reflexivity. }
    3: lia.
    all: destruct (IH _ _ Hres ltac:(lia)) as (before & options' & after & -> & Hg);
      eexists before, options', (after ++ [_]);
      (split; [rewrite <- app_assoc; reflexivity|]);
      rewrite generate_calls_app, Hg; reflexivity.
Qed.

(** X9.  In every run of [loop] and of [stream], the predicate is given the
    record of the engine call just made: the [allResults] it is given are
    the records of the engine calls completed so far, in order, and its
    [result] is the last of them, the record of the latest call; it is also
    given the number of the iteration, which is the number of engine calls
    made so far, and the prompt of the call. *)
Theorem verification_context {Value World : Type}
    (env : Env Value World) (settings : Settings.t Value World)
    (params : RalphLoopAgentCallParameters) (w : World) :
  each_event
    (fun pre e =>
       match e with
       | EvVerify context _ =>
           Verify.iteration context = Z.of_nat (generate_calls pre)
           /\ Verify.originalPrompt context = prompt params
           /\ Verify.allResults context = results_of pre
           /\ (exists rs, results_of pre = rs ++ [Verify.result context])
           /\ exists before options after,
                pre = before
                        ++ EvGenerateText options (Fulfilled (Verify.result context))
                        :: after
                /\ generate_calls after = O
       | _ => True
       end)
    (loop_log env settings params w)
  /\ each_event
       (fun pre e =>
          match e with
          | EvVerify context _ =>
              Verify.iteration context = Z.of_nat (generate_calls pre)
              /\ Verify.originalPrompt context = prompt params
              /\ Verify.allResults context = results_of pre
              /\ (exists rs, results_of pre = rs ++ [Verify.result context])
              /\ exists before options after,
                   pre = before
                           ++ EvGenerateText options (Fulfilled (Verify.result context))
                           :: after
                   /\ generate_calls after = O
          | _ => True
          end)
       (stream_log env settings params w).
Proof.
  assert (Hctx : forall pre context o,
             Built settings (prompt params) (abortSignal params) pre
                   (EvVerify context o) ->
             Verify.iteration context = Z.of_nat (generate_calls pre)
             /\ Verify.originalPrompt context = prompt params
             /\ Verify.allResults context = results_of pre
             /\ (exists rs, results_of pre = rs ++ [Verify.result context])
             /\ exists before options after,
                  pre = before
                          ++ EvGenerateText options (Fulfilled (Verify.result context))
                          :: after
                  /\ generate_calls after = O).
  { intros pre context o (_ & _ & _ & Hlen & rs & c & Hrs & _ & Hc).
    split; [|split; [|split; [|split]]].
    - now apply (f_equal Verify.iteration) in Hc.
    - now apply (f_equal Verify.originalPrompt) in Hc.
    - apply (f_equal Verify.allResults) in Hc. cbn in Hc. congruence.
    - now exists rs.
    - exact (latest_record _ _ _ Hrs Hlen). }
  split.
  - eapply each_event_weaken; [|apply loop_built].
    intros pre [| | | |context o|] H; try exact I. now apply Hctx with o.
  - eapply each_event_weaken; [|apply stream_closed].
    intros pre [| | | |context o|] H; try exact I. now apply Hctx with o.
Qed.

(** X10.  Each completed engine call is verified once and the streamed call
    never: without a predicate no verification happens; with one, when
    [loop] returns there have been as many verifications as engine calls,
    and when [stream] returns as many as blocking calls. *)
Theorem one_verification_per_call {Value World : Type}
    (env : Env Value World) (settings : Settings.t Value World)
    (params : RalphLoopAgentCallParameters) (w : World) :
  (Settings.verifyCompletion settings = None ->
   verifications (loop_log env settings params w) = O
   /\ verifications (stream_log env settings params w) = O)
  /\ (Settings.verifyCompletion settings <> None ->
      (forall r, loop_outcome env settings params w = Returned r ->
                 verifications (loop_log env settings params w)
                 = generate_calls (loop_log env settings params w))
      /\ (forall handle, stream_outcome env settings params w = Returned handle ->
                         verifications (stream_log env settings params w)
                         = generate_calls (stream_log env settings params w))).
Proof.
  split.
  - intros Hn. split.
    + destruct (loop_run env settings params w) as (re & Hr & _).
      exact (Passes_unpredicated Hn Hr).
    + destruct (stream_run env settings params w) as (d & re & Hr & H).
      pose proof (Passes_unpredicated Hn Hr) as Hv.
      destruct re as [sv|sv|v sv|e]; cbn [closing_options closing_vars] in H.
      1-3: destruct H as (h & -> & _); rewrite verifications_app, Hv; reflexivity.
      destruct H as (-> & _). exact Hv.
  - intros Hn. split.
    + intros r Hout.
      destruct (loop_run env settings params w) as (re & Hr & Hres).
      rewrite Hres in Hout.
      pose proof (Passes_accounted Hr (accounted_start settings)) as Ha.
      cbn [app] in Ha.
      destruct re as [sv|sv|v sv|e]; try discriminate.
      * destruct Ha as ((_ & Hb & _) & _). exact (Hb Hn).
      * destruct Ha as ((_ & Hb & _) & _). exact (Hb Hn).
      * destruct Ha as (_ & Hb & _). exact (Hb Hn).
    + intros handle Hout.
      destruct (stream_run env settings params w) as (d & re & Hr & H).
      pose proof (Passes_accounted Hr (accounted_start settings)) as Ha.
      cbn [app] in Ha.
      destruct re as [sv|sv|v sv|e]; cbn [closing_options closing_vars] in H.
      1-3: destruct H as (h & -> & _);
           rewrite verifications_app, generate_calls_app; cbn;
           rewrite !Nat.add_0_r.
      * destruct Ha as ((_ & Hb & _) & _). exact (Hb Hn).
      * destruct Ha as ((_ & Hb & _) & _). exact (Hb Hn).
      * destruct Ha as (_ & Hb & _). exact (Hb Hn).
      * destruct H as (_ & e' & _ & He & _). congruence.
Qed.

(** X11.  The fixed order of an iteration, in every run of [loop] and of
    [stream]: abort check, [onIterationStart], engine call,
    [onIterationEnd], predicate, each right after the one before it that is
    configured; [onIterationEnd] is told the number of the iteration and
    the record of the call that just completed, and the predicate judges
    that record. *)
Theorem iteration_order {Value World : Type}
    (env : Env Value World) (settings : Settings.t Value World)
    (params : RalphLoopAgentCallParameters) (w : World) :
  each_event (Ordered settings) (loop_log env settings params w)
  /\ each_event (Ordered settings) (stream_log env settings params w).
Proof.
  split.
  - destruct (loop_run env settings params w) as (re & Hr & _).
    exact (Passes_ordered Hr (accounted_start settings)).
  - destruct (stream_run env settings params w) as (d & re & Hr & H).
    pose proof (Passes_ordered Hr (accounted_start settings)) as Ho.
    cbn [app] in Ho.
    destruct re as [sv|sv|v sv|e]; cbn [closing_options closing_vars] in H.
    1-3: destruct H as (h & -> & _);
         (apply each_event_app; [exact Ho|]);
         (apply each_event_cons; [exact I | apply each_event_nil]).
    destruct H as (-> & _). exact Ho.
Qed.

(** X12.  The conversation only grows: a pass of the body of [loop] or of
    [stream] that does not throw leaves in [currentMessages] what was there,
    followed by the response messages and the feedback that its events
    account for, and nothing else. *)
Theorem conversation_only_grows {Value World : Type}
    (env : Env Value World) (settings : Settings.t Value World)
    (params : RalphLoopAgentCallParameters) :
  (forall vars s flow s',
      loop_body env settings (prompt params) (abortSignal params)
                (buildSystemMessages settings) vars s = (Returned flow, s') ->
      exists d,
        log s' = log s ++ d
        /\ LoopVars.currentMessages (flow_vars flow)
           = LoopVars.currentMessages vars ++ conversation_of d
        /\ (List.length (LoopVars.currentMessages vars)
            <= List.length (LoopVars.currentMessages (flow_vars flow)))%nat)
  /\ (forall vars s flow s',
        stream_body env settings (prompt params) (abortSignal params)
                    (buildSystemMessages settings) vars s = (Returned flow, s') ->
        exists d,
          log s' = log s ++ d
          /\ StreamVars.currentMessages (stream_flow_vars flow)
             = StreamVars.currentMessages vars ++ conversation_of d
          /\ (List.length (StreamVars.currentMessages vars)
              <= List.length (StreamVars.currentMessages (stream_flow_vars flow)))%nat).
Proof.
  split.
  - intros vars s flow s' Hbody.
    apply loop_body_pass in Hbody. destruct Hbody as (d & pe & Hd & Hp & Hflow).
    exists d. split; [exact Hd|].
    apply Pass_messages in Hp.
    destruct pe as [|e|v sv|sv]; cbn [loop_flow] in Hflow; inversion Hflow; subst;
      cbn [flow_vars LoopVars.currentMessages shared StreamVars.currentMessages] in *;
      rewrite Hp, ?app_nil_r, ?length_app; split; try reflexivity; lia.
  - intros vars s flow s' Hbody.
    apply stream_body_pass in Hbody. destruct Hbody as (d & pe & h & Hd & Hp & Hflow).
    exists (d ++ early_log settings (prompt params) (abortSignal params) pe h).
    split; [exact Hd|].
    apply Pass_messages in Hp.
    destruct pe as [|e|v sv|sv]; cbn [stream_flow early_log] in *;
      inversion Hflow; subst; cbn [stream_flow_vars];
      rewrite conversation_of_app; cbn [conversation_of];
      rewrite ?Hp, ?app_nil_r, ?length_app; split; try reflexivity; lia.
Qed.

(** X18.  An abort check of [loop] that sees the signal set ends the run:
    it is the last event, so no callback and no engine call follow it.  If
    engine calls were made before, [loop] returns [aborted] with as many
    iterations as calls, the last record as its result and no reason; if
    none was made, it throws the [TypeError] of the missing record. *)
Theorem loop_abort_ends_run {Value World : Type}
    (env : Env Value World) (settings : Settings.t Value World)
    (params : RalphLoopAgentCallParameters) (w : World) :
  abort_seen (loop_log env settings params w) = true ->
  (exists pre, loop_log env settings params w = pre ++ [EvAbortCheck true])
  /\ Z.of_nat (generate_calls (loop_log env settings params w)) < maxIterations settings
  /\ (generate_calls (loop_log env settings params w) = O ->
      loop_outcome env settings params w
      = Threw (TypeError "Cannot read properties of undefined (reading 'text')"))
  /\ (generate_calls (loop_log env settings params w) <> O ->
      exists r,
        loop_outcome env settings params w = Returned r
        /\ Result.completionReason r = aborted
        /\ Result.reason r = None
        /\ Result.iterations r
           = Z.of_nat (generate_calls (loop_log env settings params w))
        /\ nth_error (results_of (loop_log env settings params w))
                     (generate_calls (loop_log env settings params w) - 1)
           = Some (Result.result r)).
Proof.
  intros Hseen.
  destruct (loop_run env settings params w) as (re & Hr & Hres).
  pose proof (Passes_signs Hr) as (Hab & _ & _).
  pose proof (Passes_accounted Hr (accounted_start settings)) as Ha.
  cbn [app StreamVars.iteration vars0] in Ha.
  destruct re as [sv|sv|v sv|e]; try congruence.
  destruct Ha as (([H1 H2 H3 H4 H5] & _) & Hi & pre & Hpre).
  cbn [loop_result] in Hres.
  split; [now exists pre|]. split; [lia|].
  destruct (finalize_cases sv aborted None) as [(E0 & E)|(i & x & Hx & E)];
    rewrite E in Hres.
  - split; [intros _; exact Hres|]. intros Hg. exfalso.
    rewrite H1 in E0. rewrite E0 in H4. cbn in H4. congruence.
  - split.
    + intros Hg. exfalso. rewrite H1 in Hx. rewrite Hx, length_app in H4.
      cbn in H4. lia.
    + intros _. eexists. split; [exact Hres|]. cbn.
      repeat split; [exact H3|].
      rewrite <- H4, <- H1, Hx, length_app. cbn.
      rewrite nth_error_app2 by lia.
      replace (List.length i + 1 - 1 - List.length i)%nat with O by lia.
      reflexivity.
Qed.

(** X19.  What the engine is given in [loop]: every blocking call carries
    the model, the tools, the tool choice and each of the sampling and
    provider settings of the agent, key by key as they are configured, the
    abort signal of the call, and a step budget that is [toolStopWhen] when
    configured and [stepCountIs 20] otherwise. *)
Theorem loop_call_options {Value World : Type}
    (env : Env Value World) (settings : Settings.t Value World)
    (params : RalphLoopAgentCallParameters) (w : World) :
  each_event
    (fun pre e =>
       match e with
       | EvGenerateText options _ =>
           Call.model options = Settings.model settings
           /\ Call.tools options = Settings.tools settings
           /\ Call.toolChoice options = Settings.toolChoice settings
           /\ Call.maxOutputTokens options = Settings.maxOutputTokens settings
           /\ Call.temperature options = Settings.temperature settings
           /\ Call.topP options = Settings.topP settings
           /\ Call.topK options = Settings.topK settings
           /\ Call.presencePenalty options = Settings.presencePenalty settings
           /\ Call.frequencyPenalty options = Settings.frequencyPenalty settings
           /\ Call.stopSequences options = Settings.stopSequences settings
           /\ Call.seed options = Settings.seed settings
           /\ Call.experimental_telemetry options
              = Settings.experimental_telemetry settings
           /\ Call.activeTools options = Settings.activeTools settings
           /\ Call.prepareStep options = Settings.prepareStep settings
           /\ Call.experimental_repairToolCall options
              = Settings.experimental_repairToolCall settings
           /\ Call.providerOptions options = Settings.providerOptions settings
           /\ Call.experimental_context options
              = Settings.experimental_context settings
           /\ Call.abortSignal options = abortSignal params
           /\ (Settings.toolStopWhen settings = None ->
               Call.stopWhen options = Some (stepCountIs 20))
           /\ (forall c, Settings.toolStopWhen settings = Some c ->
                         Call.stopWhen options = Some c)
       | _ => True
       end)
    (loop_log env settings params w).
Proof.
  eapply each_event_weaken; [|apply loop_built].
  intros pre [| |options o| | |] H; try exact I; cbn in H.
  destruct H as (-> & _). cbn. unfold toolLoopStop.
  repeat split; intros; match goal with H : _ = _ |- _ => rewrite H end; reflexivity.
Qed.

(** * More about [stream] *)


(** X14.  The streaming call after an early completion is not given the
    sampling and provider options that the blocking calls are given: [topP],
    [topK], the two penalties, the stop sequences, the seed, the telemetry
    settings, the active tools, [prepareStep], the tool-call repair, the
    provider options and the context are all absent from it, whatever the
    settings say; every blocking call is given them as configured. *)
Theorem early_streaming_call_drops_options {Value World : Type}
    (env : Env Value World) (settings : Settings.t Value World)
    (params : RalphLoopAgentCallParameters) (w : World) :
  each_event
    (fun pre e =>
       match e with
       | EvGenerateText options _ =>
           Call.topP options = Settings.topP settings
           /\ Call.topK options = Settings.topK settings
           /\ Call.presencePenalty options = Settings.presencePenalty settings
           /\ Call.frequencyPenalty options = Settings.frequencyPenalty settings
           /\ Call.stopSequences options = Settings.stopSequences settings
           /\ Call.seed options = Settings.seed settings
           /\ Call.experimental_telemetry options
              = Settings.experimental_telemetry settings
           /\ Call.activeTools options = Settings.activeTools settings
           /\ Call.prepareStep options = Settings.prepareStep settings
           /\ Call.experimental_repairToolCall options
              = Settings.experimental_repairToolCall settings
           /\ Call.providerOptions options = Settings.providerOptions settings
           /\ Call.experimental_context options
              = Settings.experimental_context settings
       | EvStreamText options _ =>
           completed pre = true ->
           Call.topP options = None
           /\ Call.topK options = None
           /\ Call.presencePenalty options = None
           /\ Call.frequencyPenalty options = None
           /\ Call.stopSequences options = None
           /\ Call.seed options = None
           /\ Call.experimental_telemetry options = None
           /\ Call.activeTools options = None
           /\ Call.prepareStep options = None
           /\ Call.experimental_repairToolCall options = None
           /\ Call.providerOptions options = None
           /\ Call.experimental_context options = None
       | _ => True
       end)
    (stream_log env settings params w).
Proof.
  eapply each_event_weaken; [|apply stream_closed].
  intros pre [| |options o| | |options h] H; try exact I; cbn in H.
  - destruct H as (-> & _). repeat split.
  - intros Hc. rewrite Hc in H. destruct H as (-> & _). repeat split.
Qed.

(** X15.  A run of [stream] in which no verification reports completion,
    no abort check sees the signal set and no call is rejected makes
    exactly max(N - 1, 0) blocking calls and then streams the final
    iteration, numbered max(N - 1, 0) + 1, with the message list of that
    iteration and the options of a blocking call; the handle is returned. *)
Theorem stream_spends_budget_unless_verified {Value World : Type}
    (env : Env Value World) (settings : Settings.t Value World)
    (params : RalphLoopAgentCallParameters) (w : World) :
  forallb undisturbed (stream_log env settings params w) = true ->
  completed (stream_log env settings params w) = false ->
  exists pre handle,
    stream_outcome env settings params w = Returned handle
    /\ stream_log env settings params w
       = pre ++ [EvStreamText
                   (engineOptions settings
                      (outbound settings params (conversation_of pre)
                                (Z.max 0 (maxIterations settings - 1) + 1))
                      (abortSignal params))
                   handle]
    /\ Z.of_nat (generate_calls pre) = Z.max 0 (maxIterations settings - 1)
    /\ stream_calls pre = O.
Proof.
  intros Hq Hc.
  destruct (stream_run env settings params w) as (d & re & Hr & H).
  pose proof (Passes_accounted Hr (accounted_start settings)) as Ha.
  cbn [app StreamVars.iteration vars0] in Ha.
  assert (Hd : forallb undisturbed d = true /\ completed d = false).
  { destruct re as [sv|sv|v' sv|e]; cbn [closing_options closing_vars] in H.
    1-3: destruct H as (h & Hl & _); rewrite Hl in Hq, Hc;
         rewrite forallb_app in Hq; rewrite completed_app in Hc;
         apply andb_prop in Hq; apply orb_false_elim in Hc; tauto.
    destruct H as (Hl & _). rewrite Hl in Hq, Hc. tauto. }
  destruct Hd as (Hqd & Hcd).
  destruct (Passes_undisturbed Hr Hqd Hcd) as (sv & ->).
  cbn [closing_options closing_vars] in H. destruct H as (h & Hl & Ho & _).
  destruct Ha as (([H1 H2 H3 H4 H5] & _) & Hi).
  exists d, h. rewrite Hl. unfold pass_options.
  rewrite iterationMessages_outbound, H2, Hi, Z.max_comm.
  repeat split; try assumption. rewrite <- H3, Hi. apply Z.max_comm.
Qed.

(** X16.  A rejected call ends the run of [stream] too: the rejection is
    the last event, [stream] throws the error of that call, and no
    streaming call is issued. *)
Theorem stream_failure_propagates {Value World : Type}
    (env : Env Value World) (settings : Settings.t Value World)
    (params : RalphLoopAgentCallParameters) (w : World)
    (ev : Event Value) (e : Error) :
  In ev (stream_log env settings params w) ->
  rejection ev = Some e ->
  stream_outcome env settings params w = Threw e
  /\ stream_calls (stream_log env settings params w) = O
  /\ exists pre, stream_log env settings params w = pre ++ [ev] /\ failures pre = O.
Proof.
  intros Hin Hrej.
  destruct (stream_run env settings params w) as (d & re & Hr & H).
  pose proof (Passes_rejected Hr) as Hd.
  pose proof (Passes_accounted Hr (accounted_start settings)) as Ha.
  cbn [app] in Ha.
  destruct re as [sv|sv|v sv|e']; cbn [closing_options closing_vars] in H.
  1-3: exfalso; destruct H as (h & Hl & _); rewrite Hl in Hin;
       apply in_app_or in Hin; destruct Hin as [Hin|[Hin|[]]];
       [now destruct (in_failures _ _ Hin Hrej) | subst ev; discriminate].
  destruct H as (Hl & e'' & He & Ho & _). inversion He; subst e''.
  destruct Hd as (pre & ev' & Hlog & Hrej' & Hpre).
  destruct Ha as (_ & H5).
  rewrite Hl, Ho. rewrite Hl in Hin. rewrite Hlog in Hin.
  apply in_app_or in Hin. destruct Hin as [Hin|[Hin|[]]].
  - now destruct (in_failures _ _ Hin Hrej).
  - subst ev'. split; [congruence|]. split; [exact H5|]. now exists pre.
Qed.

(** X17.  Instructions that are absent, the empty string or an empty array
    give no system message: every engine call of [loop] and of [stream],
    blocking or streaming, is sent a list that starts with the user message
    of the prompt. *)
Theorem prompt_first_without_instructions {Value World : Type}
    (env : Env Value World) (settings : Settings.t Value World)
    (params : RalphLoopAgentCallParameters) (w : World) :
  (Settings.instructions settings = None
   \/ Settings.instructions settings = Some (InstructionsString "")
   \/ Settings.instructions settings = Some (InstructionsArray [])) ->
  each_event
    (fun pre e =>
       forall options, call_options e = Some options ->
         hd_error (Call.messages options) = Some (initialUserMessage (prompt params)))
    (loop_log env settings params w)
  /\ each_event
       (fun pre e =>
          forall options, call_options e = Some options ->
            hd_error (Call.messages options) = Some (initialUserMessage (prompt params)))
       (stream_log env settings params w).
Proof.
  intros Hins.
  assert (Hsys : buildSystemMessages settings = []).
  { unfold buildSystemMessages. destruct Hins as [-> | [-> | ->]]; reflexivity. }
  assert (Hhd : forall pre e,
             Closed settings (prompt params) (abortSignal params) pre e ->
             forall options, call_options e = Some options ->
               hd_error (Call.messages options)
               = Some (initialUserMessage (prompt params))).
  { intros pre [| |options o| | |options h] H options' Hopt; try discriminate;
      cbn in Hopt; inversion Hopt; subst options'; cbn in H.
    - destruct H as (-> & _). cbn. unfold iterationMessages. rewrite Hsys.
      destruct (_ >? 1); reflexivity.
    - destruct H as (-> & _). destruct (completed pre); cbn;
        unfold iterationMessages; rewrite Hsys; [reflexivity|].
      destruct (_ >? 1); reflexivity. }
  split; (eapply each_event_weaken; [exact Hhd|]);
    [apply loop_closed | apply stream_closed].
Qed.

(** * Runs in the small world *)

(** The scenario of the specification: budget 3, no predicate. *)
Lemma loop_without_predicate_spends_budget_witness :
  exists r,
    loop_outcome test_env (test_settings 3 None) test_params quiet_world = Returned r
    /\ Result.completionReason r = max_iterations
    /\ Z.of_nat (generate_calls
                   (loop_log test_env (test_settings 3 None) test_params quiet_world))
       = maxIterations (test_settings 3 None)
    /\ Result.iterations r = maxIterations (test_settings 3 None).
Proof.
  apply (loop_without_predicate_spends_budget test_env (test_settings 3 None)
           test_params quiet_world).
  - reflexivity.
  - vm_compute. discriminate.
  - vm_compute. reflexivity.
Defined.

(** The scenario of the specification: budget 5, completion reported with
    reason "done" in the second iteration. *)
Lemma loop_stops_when_verified_witness :
  exists r,
    loop_outcome test_env (test_settings 5 (Some (done_in 2))) test_params quiet_world
      = Returned r
    /\ Result.completionReason r = verified
    /\ Result.iterations r = Verify.iteration second_context
    /\ Result.reason r = reason verdict_done
    /\ Z.of_nat (generate_calls
                   (loop_log test_env (test_settings 5 (Some (done_in 2)))
                             test_params quiet_world))
       = Verify.iteration second_context
    /\ 1 <= Verify.iteration second_context
         <= maxIterations (test_settings 5 (Some (done_in 2)))
    /\ exists pre,
         loop_log test_env (test_settings 5 (Some (done_in 2))) test_params quiet_world
         = pre ++ [EvVerify second_context (Fulfilled verdict_done)].
Proof.
  apply (loop_stops_when_verified test_env (test_settings 5 (Some (done_in 2)))
           test_params quiet_world second_context verdict_done).
  - vm_compute. do 5 right. left. reflexivity.
  - reflexivity.
Defined.

Lemma loop_result_is_last_record_witness :
  Result.iterations verified_result
  = Z.of_nat (List.length (Result.allResults verified_result))
  /\ (exists init,
        Result.allResults verified_result = init ++ [Result.result verified_result])
  /\ Result.text verified_result = text (Result.result verified_result).
Proof.
  apply (loop_result_is_last_record test_env (test_settings 5 (Some (done_in 2)))
           test_params quiet_world (r := verified_result)).
  vm_compute. reflexivity.
Defined.

(** Budget 5, completion in the second iteration: the first verification
    asks to "add tests", and the second blocking call is sent that. *)
Lemma feedback_is_sent_to_next_call_witness :
  exists c,
    conversation_of [EvAbortCheck false; EvGenerateText first_options (Fulfilled (draft 1))]
      = c ++ response_messages (Verify.result first_context)
    /\ Call.messages second_options
       = buildSystemMessages scenario
           ++ [{| role := user; content := ContentParts [TextPart (prompt test_params)] |}]
           ++ c ++ response_messages (Verify.result first_context)
           ++ [{| role := user;
                  content := ContentParts
                    [TextPart (String.append "Feedback: " "add tests")] |}]
           ++ [{| role := user;
                  content := ContentParts
                    [TextPart "Continue working on the task. The previous attempt was not complete."] |}].
Proof.
  refine (proj1 (proj2 (proj2 (feedback_is_sent_to_next_call test_env scenario test_params
                                 quiet_world)))
            [EvAbortCheck false; EvGenerateText first_options (Fulfilled (draft 1))]
            first_context verdict_more "add tests" [EvAbortCheck false]
            (EvGenerateText second_options (Fulfilled (draft 2)))
            second_options
            [EvVerify second_context (Fulfilled verdict_done)]
            _ _ _ _ _ _ _).
  - vm_compute. reflexivity.
  - reflexivity.
  - reflexivity.
  - discriminate.
  - reflexivity.
  - reflexivity.
  - reflexivity.
Defined.

(** The second blocking call of the scenario is the call of iteration 2. *)
Lemma iteration_messages_witness :
  Call.messages second_options
  = outbound scenario test_params
      (conversation_of (first_pass ++ [EvAbortCheck false]))
      (Z.of_nat (generate_calls (first_pass ++ [EvAbortCheck false])) + 1).
Proof.
  refine (proj1 (proj2 (proj2 (iteration_messages test_env scenario test_params
                                 quiet_world)))
            (first_pass ++ [EvAbortCheck false])
            (EvGenerateText second_options (Fulfilled (draft 2)))
            [EvVerify second_context (Fulfilled verdict_done)] _).
  vm_compute. reflexivity.
Defined.

(** The records that [loop] returns in the scenario. *)
Lemma loop_records_one_per_call_witness :
  Result.allResults verified_result
    = results_of (loop_log test_env scenario test_params quiet_world)
  /\ List.length (Result.allResults verified_result)
     = generate_calls (loop_log test_env scenario test_params quiet_world)
  /\ forall pre options x post,
       loop_log test_env scenario test_params quiet_world
         = pre ++ EvGenerateText options (Fulfilled x) :: post ->
       generate_calls pre = O ->
       nth_error (Result.allResults verified_result) 0 = Some x.
Proof.
  refine (proj2 (proj2 (loop_records_one_per_call test_env scenario test_params
                          quiet_world)) verified_result _).
  vm_compute. reflexivity.
Defined.

(** The streaming call of a run with budget 2 is given what a blocking
    call is given. *)
Lemma streaming_call_inputs_witness :
  Call.stopWhen final_options = Some (toolLoopStop (test_settings 2 None))
  /\ Call.model final_options = Settings.model (test_settings 2 None)
  /\ Call.tools final_options = Settings.tools (test_settings 2 None)
  /\ Call.toolChoice final_options = Settings.toolChoice (test_settings 2 None)
  /\ Call.maxOutputTokens final_options = Settings.maxOutputTokens (test_settings 2 None)
  /\ Call.temperature final_options = Settings.temperature (test_settings 2 None)
  /\ Call.abortSignal final_options = abortSignal test_params
  /\ (completed [EvAbortCheck false;
                 EvGenerateText
                   (engineOptions (test_settings 2 None)
                      (outbound (test_settings 2 None) test_params [] 1) (Some O))
                   (Fulfilled (draft 1))] = false ->
      final_options
      = engineOptions (test_settings 2 None) (Call.messages final_options)
                      (abortSignal test_params)).
Proof.
  refine (streaming_call_inputs test_env (test_settings 2 None) test_params quiet_world
            [EvAbortCheck false;
             EvGenerateText
               (engineOptions (test_settings 2 None)
                  (outbound (test_settings 2 None) test_params [] 1) (Some O))
               (Fulfilled (draft 1))]
            (EvStreamText final_options test_handle) [] _).
  vm_compute. reflexivity.
Defined.

(** With budget 2, [stream] returns after one blocking call and the
    streaming call. *)
Lemma stream_calls_within_budget_witness :
  exists pre options sv,
    stream_log test_env (test_settings 2 None) test_params quiet_world
      = pre ++ [EvStreamText options test_handle]
    /\ stream_calls pre = O
    /\ stream_vars test_env (test_settings 2 None) test_params quiet_world = Some sv
    /\ StreamVars.allResults sv = results_of pre
    /\ List.length (StreamVars.allResults sv) = generate_calls pre
    /\ StreamVars.currentMessages sv = conversation_of pre.
Proof.
  refine (proj2 (proj2 (proj2 (stream_calls_within_budget test_env (test_settings 2 None)
                                 test_params quiet_world))) test_handle _).
  vm_compute. reflexivity.
Defined.

(** Called with the signal already set, [stream] with budget 3 checks once
    and streams. *)
Lemma stream_has_no_aborted_end_witness :
  exists handle pre,
    stream_outcome test_env (test_settings 3 None) test_params aborted_world
      = Returned handle
    /\ stream_log test_env (test_settings 3 None) test_params aborted_world
       = pre ++ [EvStreamText
                   (engineOptions (test_settings 3 None)
                      (buildSystemMessages (test_settings 3 None)
                         ++ [initialUserMessage (prompt test_params)])
                      (abortSignal test_params))
                   handle]
    /\ (pre = [] \/ pre = [EvAbortCheck true])
    /\ generate_calls (stream_log test_env (test_settings 3 None) test_params
                                  aborted_world) = O
    /\ stream_calls (stream_log test_env (test_settings 3 None) test_params
                                aborted_world) = 1%nat.
Proof.
  refine (proj2 (stream_has_no_aborted_end test_env (test_settings 3 None) test_params
                   aborted_world) O _ _).
  - reflexivity.
  - reflexivity.
Defined.

Lemma loop_without_budget_witness :
  loop_log test_env (test_settings 0 None) test_params quiet_world = []
  /\ loop_outcome test_env (test_settings 0 None) test_params quiet_world
     = Threw (TypeError "Cannot read properties of undefined (reading 'text')").
Proof.
  apply (loop_without_budget test_env (test_settings 0 None) test_params quiet_world).
  vm_compute. discriminate.
Defined.

(** Budget 3, the engine fails at its second call. *)
Lemma loop_failure_propagates_witness :
  loop_outcome test_env (test_settings 3 None) test_params failing_world
    = Threw (Raised "engine failure")
  /\ exists pre,
       loop_log test_env (test_settings 3 None) test_params failing_world
         = pre ++ [rejected_call]
       /\ failures pre = O.
Proof.
  apply (loop_failure_propagates test_env (test_settings 3 None) test_params
           failing_world rejected_call).
  - vm_compute. do 3 right. left. reflexivity.
  - reflexivity.
Defined.

Lemma loop_throws_only_witness :
  (exists pre ev,
      loop_log test_env (test_settings 3 None) test_params failing_world = pre ++ [ev]
      /\ rejection ev = Some (Raised "engine failure"))
  \/ (Raised "engine failure"
        = TypeError "Cannot read properties of undefined (reading 'text')"
      /\ failures (loop_log test_env (test_settings 3 None) test_params failing_world) = O
      /\ ((loop_log test_env (test_settings 3 None) test_params failing_world = []
           /\ maxIterations (test_settings 3 None) <= 0)
          \/ loop_log test_env (test_settings 3 None) test_params failing_world
             = [EvAbortCheck true])).
Proof.
  apply (loop_throws_only test_env (test_settings 3 None) test_params failing_world).
  vm_compute. reflexivity.
Defined.

(** Budget 5, the signal is set after two calls. *)
Lemma loop_completion_reason_witness :
  Result.completionReason aborted_result = aborted
  /\ abort_seen (loop_log test_env (test_settings 5 None) test_params late_abort_world)
     = true
  /\ Result.iterations aborted_result
     = Z.of_nat (generate_calls
                   (loop_log test_env (test_settings 5 None) test_params
                             late_abort_world)).
Proof.
  destruct (loop_completion_reason test_env (test_settings 5 None) test_params
              late_abort_world (r := aborted_result))
    as (_ & Hab & _ & _ & _ & _ & _ & Hn).
  - vm_compute. reflexivity.
  - split; [reflexivity|]. split; [now apply Hab | exact Hn].
Defined.

(** Budget 3 with a predicate that is never done. *)
Lemma loop_spends_budget_unless_verified_witness :
  exists r,
    loop_outcome test_env (test_settings 3 (Some (done_in 9))) test_params quiet_world
      = Returned r
    /\ Result.completionReason r = max_iterations
    /\ Result.reason r = None
    /\ Result.iterations r = maxIterations (test_settings 3 (Some (done_in 9)))
    /\ Z.of_nat (generate_calls
                   (loop_log test_env (test_settings 3 (Some (done_in 9)))
                             test_params quiet_world))
       = maxIterations (test_settings 3 (Some (done_in 9)))
    /\ (Settings.verifyCompletion (test_settings 3 (Some (done_in 9))) <> None ->
        Z.of_nat (verifications
                    (loop_log test_env (test_settings 3 (Some (done_in 9)))
                              test_params quiet_world))
        = maxIterations (test_settings 3 (Some (done_in 9)))).
Proof.
  apply (loop_spends_budget_unless_verified test_env
           (test_settings 3 (Some (done_in 9))) test_params quiet_world).
  - vm_compute. discriminate.
  - vm_compute. reflexivity.
  - vm_compute. reflexivity.
Defined.

(** No stop condition configured. *)
Lemma loop_default_budget_witness :
  generate_calls (loop_log test_env unbounded plain_params quiet_world) = 10%nat
  /\ exists r, loop_outcome test_env unbounded plain_params quiet_world = Returned r
               /\ Result.iterations r = 10
               /\ Result.completionReason r = max_iterations.
Proof.
  apply (loop_default_budget test_env unbounded plain_params quiet_world).
  - left. reflexivity.
  - vm_compute. reflexivity.
  - vm_compute. reflexivity.
Defined.

(** Signal 0 is set in the world, but the call names no signal. *)
Lemma no_signal_no_abort_witness :
  abort_seen (loop_log test_env (test_settings 3 None) plain_params aborted_world) = false
  /\ abort_seen (stream_log test_env (test_settings 3 None) plain_params aborted_world)
     = false
  /\ forall r,
       loop_outcome test_env (test_settings 3 None) plain_params aborted_world
         = Returned r ->
       Result.completionReason r <> aborted.
Proof.
  apply (no_signal_no_abort test_env (test_settings 3 None) plain_params aborted_world).
  reflexivity.
Defined.


(** [stream] with budget 3 and no predicate. *)
Lemma stream_spends_budget_unless_verified_witness :
  exists pre handle,
    stream_outcome test_env (test_settings 3 None) test_params quiet_world
      = Returned handle
    /\ stream_log test_env (test_settings 3 None) test_params quiet_world
       = pre ++ [EvStreamText
                   (engineOptions (test_settings 3 None)
                      (outbound (test_settings 3 None) test_params (conversation_of pre)
                                (Z.max 0 (maxIterations (test_settings 3 None) - 1) + 1))
                      (abortSignal test_params))
                   handle]
    /\ Z.of_nat (generate_calls pre) = Z.max 0 (maxIterations (test_settings 3 None) - 1)
    /\ stream_calls pre = O.
Proof.
  apply (stream_spends_budget_unless_verified test_env (test_settings 3 None)
           test_params quiet_world).
  - vm_compute. reflexivity.
  - vm_compute. reflexivity.
Defined.

(** [stream] with budget 3, the engine fails at its second call. *)
Lemma stream_failure_propagates_witness :
  stream_outcome test_env (test_settings 3 None) test_params failing_world
    = Threw (Raised "engine failure")
  /\ stream_calls (stream_log test_env (test_settings 3 None) test_params failing_world)
     = O
  /\ exists pre,
       stream_log test_env (test_settings 3 None) test_params failing_world
         = pre ++ [rejected_call]
       /\ failures pre = O.
Proof.
  apply (stream_failure_propagates test_env (test_settings 3 None) test_params
           failing_world rejected_call).
  - vm_compute. do 3 right. left. reflexivity.
  - reflexivity.
Defined.

(** No instructions: the ten calls of [loop] start with the prompt. *)
Lemma prompt_first_without_instructions_witness :
  each_event
    (fun pre e =>
       forall options, call_options e = Some options ->
         hd_error (Call.messages options) = Some (initialUserMessage (prompt plain_params)))
    (loop_log test_env unbounded plain_params quiet_world)
  /\ each_event
       (fun pre e =>
          forall options, call_options e = Some options ->
            hd_error (Call.messages options)
            = Some (initialUserMessage (prompt plain_params)))
       (stream_log test_env unbounded plain_params quiet_world).
Proof.
  apply (prompt_first_without_instructions test_env unbounded plain_params quiet_world).
  left. reflexivity.
Defined.

(** With both callbacks configured, the predicate of the first iteration
    comes right after [onIterationEnd]. *)
Lemma iteration_order_witness :
  exists i d,
    previous [EvAbortCheck false;
              EvIterationStart 1 (Fulfilled tt);
              EvGenerateText
                (engineOptions watched (outbound watched test_params [] 1) (Some O))
                (Fulfilled (draft 1));
              EvIterationEnd 1 5 (draft 1) (Fulfilled tt)]
    = Some (EvIterationEnd i d (Verify.result first_context) (Fulfilled tt)).
Proof.
  refine (proj1 (iteration_order test_env watched test_params quiet_world)
            [EvAbortCheck false;
             EvIterationStart 1 (Fulfilled tt);
             EvGenerateText
               (engineOptions watched (outbound watched test_params [] 1) (Some O))
               (Fulfilled (draft 1));
             EvIterationEnd 1 5 (draft 1) (Fulfilled tt)]
            (EvVerify first_context (Fulfilled verdict_more))
            _ _).
  vm_compute. reflexivity.
Defined.

(** In the scenario [topP] and the seed are configured; the streaming call
    after the early completion is not given them. *)
Lemma early_streaming_call_drops_options_witness :
  Settings.topP scenario = Some "0.9"
  /\ Call.topP (earlyStreamOptions scenario
                  (outbound scenario test_params
                     (response_messages (draft 1) ++ [feedbackMessage "add tests"]
                        ++ response_messages (draft 2)) 1)
                  (Some O)) = None.
Proof.
  split; [reflexivity|].
  refine (proj1 (early_streaming_call_drops_options test_env scenario test_params
                   quiet_world
                   (first_pass ++ [EvAbortCheck false;
                                   EvGenerateText second_options (Fulfilled (draft 2));
                                   EvVerify second_context (Fulfilled verdict_done)])
                   (EvStreamText
                      (earlyStreamOptions scenario
                         (outbound scenario test_params
                            (response_messages (draft 1) ++ [feedbackMessage "add tests"]
                               ++ response_messages (draft 2)) 1)
                         (Some O))
                      test_handle)
                   [] _ _)).
  - vm_compute. reflexivity.
  - reflexivity.
Defined.

(** Budget 5, the signal is set after two calls: the third check ends the
    run. *)
Lemma loop_abort_ends_run_witness :
  exists pre,
    loop_log test_env (test_settings 5 None) test_params late_abort_world
    = pre ++ [EvAbortCheck true].
Proof.
  refine (proj1 (loop_abort_ends_run test_env (test_settings 5 None) test_params
                   late_abort_world _)).
  vm_compute. reflexivity.
Defined.
